(** * three-mesh-ui: the component core (src/components/core/MeshUIComponent.js)

    A shallow embedding of the attribute getters, the update dispatch
    ([set]), the state table ([setupState], [setState]), the font callbacks
    and the clipping-plane derivation of a UI component, followed by the
    properties that the specification states about them.

    Objects of the scene graph live in a store indexed by identifiers, so
    that parent references alias the way JavaScript references do.  Calls
    into collaborators that are outside this file (UpdateManager,
    FontLibrary, console, user callbacks) are recorded as a trace of events
    in call order. *)

From Stdlib Require Import QArith.
From stdpp Require Import gmap strings list fin_maps option.

Close Scope Q_scope.
Local Open Scope string_scope.
Local Open Scope list_scope.

(** ** JavaScript values *)

(** The values an attribute can hold.  Finite numbers are rationals; objects
    (colors, textures, font descriptions) are opaque references. *)
Inductive JSValue : Type :=
| VUndefined
| VNull
| VBool (b : bool)
| VNum (q : Q)
| VNaN
| VStr (s : string)
| VObj (ref : nat).

(** [v === undefined] *)
Definition is_undefined (v : JSValue) : bool :=
  match v with VUndefined => true | _ => false end.

(** ToBoolean: [undefined], [null], [false], [0], [NaN] and [""] are falsy. *)
Definition truthy (v : JSValue) : bool :=
  match v with
  | VUndefined | VNull | VNaN => false
  | VBool b => b
  | VNum q => negb (Qeq_bool q 0)
  | VStr s => negb (String.eqb s "")
  | VObj _ => true
  end.

(** [v !== 0] *)
Definition strict_neq_zero (v : JSValue) : bool :=
  match v with VNum q => negb (Qeq_bool q 0) | _ => true end.

(** [a || b] *)
Definition js_or (a b : JSValue) : JSValue := if truthy a then a else b.

(** ** Option objects, state bundles, scene objects *)

(** An options object: its own enumerable properties in [Object.keys] order. *)
Definition Options : Type := list (string * JSValue).

(** [options[prop]] *)
Fixpoint opt_get (options : Options) (prop : string) : JSValue :=
  match options with
  | [] => VUndefined
  | (k, v) :: rest => if String.eqb k prop then v else opt_get rest prop
  end.

(** [Object.keys(options)] *)
Definition keys (options : Options) : list string := map fst options.

(** What [setupState] stores under a state name: [{ attributes, onSet }].
    A callback is an opaque reference; invoking it is an event. *)
Record StateBundle : Type := mkBundle {
  attributes : option Options;
  onSet : option nat
}.

Definition Matrix4 : Type := list Q.

Record Object3D : Type := mkObject3D {
  isUI : bool;
  isBlock : bool;
  isText : bool;
  isInlineBlock : bool;
  parent : option nat;
  children : list nat;
  matrixWorld : Matrix4;
  props : gmap string JSValue;
  states : gmap string StateBundle;
  currentState : option string
}.

(** The scene graph: a store of objects; [parent] and [children] hold keys
    of this store. *)
Abbreviation Scene := (gmap nat Object3D).

(** [this[propName]] for a name of the attribute vocabulary: a property that
    was never written reads as [undefined]. *)
Definition own (this : Object3D) (propName : string) : JSValue :=
  default VUndefined (props this !! propName).

(** [this[propName] = v] *)
Definition write (this : Object3D) (propName : string) (v : JSValue) : Object3D :=
  mkObject3D (isUI this) (isBlock this) (isText this) (isInlineBlock this)
    (parent this) (children this) (matrixWorld this)
    (<[propName := v]> (props this)) (states this) (currentState this).

(** [node[propName] = v] performed on the object stored under [n]. *)
Definition assign (s : Scene) (n : nat) (propName : string) (v : JSValue) : Scene :=
  match s !! n with
  | Some o => <[n := write o propName v]> s
  | None => s
  end.

(** ** Getters *)

(** [getUIParent]: the parent when there is one and it is tagged [isUI],
    otherwise [null] (rendered as [None]). *)
Definition getUIParent (s : Scene) (this : Object3D) : option nat :=
  match parent this with
  | Some p =>
      match s !! p with
      | Some po => if isUI po then Some p else None
      | None => None
      end
  | None => None
  end.

(** [getHighestParent].  The recursion follows parent references, so it is
    bounded by [fuel], the depth of call stack available; [None] is the
    overflow of that stack (or a reference to no object). *)
Fixpoint getHighestParent (fuel : nat) (s : Scene) (n : nat) : option nat :=
  match fuel with
  | 0 => None
  | S fuel' =>
      this ← s !! n;
      match getUIParent s this with
      | None => Some n
      | Some _ => p ← parent this; getHighestParent fuel' s p
      end
  end.

(** [i + 1] for a JavaScript number [i] that holds a non-negative integer.
    The sum is exact up to 2^53 = 9007199254740992.  From there on it is
    rounded to the nearest number that a double can hold, the tie going to
    the even significand: between 2^53 and 2^54 the doubles are the even
    integers and [i + 1] lies half way between [i] and [i + 2]; from 2^54
    on [i] itself is the nearest. *)
Definition js_increment (i : N) : N :=
  if (i <? 9007199254740992)%N then (i + 1)%N
  else if (i <? 18014398509481984)%N
       then (if N.even (i / 2) then i else i + 2)%N
       else i.

(** [getParentsNumber( i )].  The counter is a JavaScript number; [None]
    for [i] is the missing argument of the outer call, which
    [i = i || 0] reads as 0 (as it reads 0 itself). *)
Fixpoint getParentsNumber (fuel : nat) (s : Scene) (n : nat) (i : option N)
  : option N :=
  match fuel with
  | 0 => None
  | S fuel' =>
      this ← s !! n;
      let i := default 0%N i in
      match getUIParent s this with
      | Some _ =>
          p ← parent this; getParentsNumber fuel' s p (Some (js_increment i))
      | None => Some i
      end
  end.

(** [child.isUI] for the object stored under [c]. *)
Definition isUI_at (s : Scene) (c : nat) : bool :=
  match s !! c with Some co => isUI co | None => false end.

(** [getUIChildren] *)
Definition getUIChildren (s : Scene) (this : Object3D) : list nat :=
  List.filter (isUI_at s) (children this).

Section Getters.

(** The table of process-wide defaults, [utils/Defaults.js]; a key it does
    not have reads as [VUndefined]. *)
Variable DEFAULTS : string → JSValue.

(** [_getProperty( propName )] *)
Fixpoint _getProperty (fuel : nat) (s : Scene) (n : nat) (propName : string)
  : option JSValue :=
  match fuel with
  | 0 => None
  | S fuel' =>
      this ← s !! n;
      if is_undefined (own this propName) && bool_decide (is_Some (getUIParent s this))
      then p ← parent this; _getProperty fuel' s p propName
      else if truthy (own this propName) then Some (own this propName)
      else Some (DEFAULTS propName)
  end.

Definition getFontSize fuel s n := _getProperty fuel s n "fontSize".
Definition getFontTexture fuel s n := _getProperty fuel s n "fontTexture".
Definition getFontFamily fuel s n := _getProperty fuel s n "fontFamily".
Definition getBreakOn fuel s n := _getProperty fuel s n "breakOn".
Definition getTextType fuel s n := _getProperty fuel s n "textType".
Definition getFontColor fuel s n := _getProperty fuel s n "fontColor".
Definition getFontOpacity fuel s n := _getProperty fuel s n "fontOpacity".
Definition getBorderRadius fuel s n := _getProperty fuel s n "borderRadius".

(** Getters with no parents lookup. *)

Definition getBackgroundOpacity (this : Object3D) : JSValue :=
  if negb (truthy (own this "backgroundOpacity"))
     && strict_neq_zero (own this "backgroundOpacity")
  then DEFAULTS "backgroundOpacity" else own this "backgroundOpacity".

Definition getBackgroundColor (this : Object3D) : JSValue :=
  js_or (own this "backgroundColor") (DEFAULTS "backgroundColor").

Definition getBackgroundTexture (this : Object3D) : JSValue :=
  js_or (own this "backgroundTexture") (DEFAULTS "backgroundTexture").

Definition getAlignContent (this : Object3D) : JSValue :=
  js_or (own this "alignContent") (DEFAULTS "alignContent").

Definition getContentDirection (this : Object3D) : JSValue :=
  js_or (own this "contentDirection") (DEFAULTS "contentDirection").

Definition getJustifyContent (this : Object3D) : JSValue :=
  js_or (own this "justifyContent") (DEFAULTS "justifyContent").

Definition getInterLine (this : Object3D) : JSValue :=
  if is_undefined (own this "interLine") then DEFAULTS "interLine"
  else own this "interLine".

Definition getOffset (this : Object3D) : JSValue :=
  if is_undefined (own this "offset") then DEFAULTS "offset"
  else own this "offset".

Definition getBackgroundSize (this : Object3D) : JSValue :=
  if is_undefined (own this "backgroundSize") then DEFAULTS "backgroundSize"
  else own this "backgroundSize".

Definition getHiddenOverflow (this : Object3D) : JSValue :=
  if is_undefined (own this "hiddenOverflow") then DEFAULTS "hiddenOverflow"
  else own this "hiddenOverflow".

End Getters.

(** ** Calls into collaborators *)

(** One entry per call that leaves the component, in call order. *)
Inductive Event : Type :=
| Register (c : nat)
    (** [UpdateManager.register( c )] *)
| RequestUpdate (c : nat) (updateParsing updateLayout updateInner : JSValue)
    (** [UpdateManager.requestUpdate( c, updateParsing, updateLayout, updateInner )] *)
| SetFontFamily (c : nat) (fontFamily : JSValue)
    (** [FontLibrary.setFontFamily( c, fontFamily )] *)
| SetFontTexture (c : nat) (fontTexture : JSValue)
    (** [FontLibrary.setFontTexture( c, fontTexture )] *)
| Warn (msg : string)
    (** [console.warn( msg )] *)
| CallOnSet (cb : nat)
    (** [savedState.onSet()], the body of the callback being user code *).

(** [update( updateParsing, updateLayout, updateInner )] on component [this]. *)
Definition update (this : nat) (updateParsing updateLayout updateInner : JSValue)
  : list Event :=
  [RequestUpdate this updateParsing updateLayout updateInner].

(** ** Font callbacks *)

(** [Object3D.traverse] of the host scene graph: the callback is run on the
    object, then on the subtree of each child in order.  The result is the
    list of visited objects. *)
Fixpoint traverse (fuel : nat) (s : Scene) (n : nat) : option (list nat) :=
  match fuel with
  | 0 => None
  | S fuel' =>
      this ← s !! n;
      rest ← mapM (traverse fuel' s) (children this);
      Some (n :: concat rest)
  end.

(** [_updateFontFamily( font )] *)
Definition _updateFontFamily (fuel : nat) (s : Scene) (n : nat) (font : JSValue)
  : option (Scene * list Event) :=
  this ← s !! n;
  let s1 := <[n := write this "fontFamily" font]> s in
  visited ← traverse fuel s1 n;
  let walk :=
    flat_map (λ child, if isUI_at s1 child
                       then update child (VBool true) (VBool true) (VBool false)
                       else []) visited in
  top ← getHighestParent fuel s1 n;
  Some (s1, walk ++ update top (VBool false) (VBool true) (VBool false)).

(** [_updateFontTexture( texture )] *)
Definition _updateFontTexture (fuel : nat) (s : Scene) (n : nat) (texture : JSValue)
  : option (Scene * list Event) :=
  this ← s !! n;
  let s1 := <[n := write this "fontTexture" texture]> s in
  top ← getHighestParent fuel s1 n;
  Some (s1, update top (VBool false) (VBool true) (VBool false)).

(** ** [set] *)

(** The three local variables of [set]; [let] leaves them [undefined]. *)
Record Flags : Type := mkFlags {
  parsingNeedsUpdate : JSValue;
  layoutNeedsUpdate : JSValue;
  innerNeedsUpdate : JSValue
}.

Definition noFlags : Flags := mkFlags VUndefined VUndefined VUndefined.

Definition one_of (prop : string) (names : list string) : bool :=
  existsb (String.eqb prop) names.

(** One turn of the loop over [Object.keys(options)]: the [switch]. *)
Definition set_prop (options : Options) (acc : Object3D * Flags) (prop : string)
  : Object3D * Flags :=
  let '(this, f) := acc in
  if String.eqb prop "content" then
    (write this prop (opt_get options prop),
     mkFlags (if isText this then VBool true else parsingNeedsUpdate f)
             (VBool true) (innerNeedsUpdate f))
  else if one_of prop ["width"; "height"; "padding"] then
    (write this prop (opt_get options prop),
     mkFlags (if isInlineBlock this then VBool true else parsingNeedsUpdate f)
             (VBool true) (innerNeedsUpdate f))
  else if one_of prop ["fontSize"; "interLine"; "margin"; "contentDirection";
                       "justifyContent"; "alignContent"; "textType";
                       "borderRadius"; "backgroundSize"; "src"] then
    (write this prop (opt_get options prop),
     mkFlags (parsingNeedsUpdate f) (VBool true) (innerNeedsUpdate f))
  else if one_of prop ["fontColor"; "fontOpacity"; "offset"; "backgroundColor";
                       "backgroundOpacity"; "backgroundTexture"] then
    (write this prop (opt_get options prop),
     mkFlags (parsingNeedsUpdate f) (layoutNeedsUpdate f) (VBool true))
  else if String.eqb prop "hiddenOverflow" then
    (write this prop (opt_get options prop), f)
  else acc.

(** The whole loop. *)
Definition set_loop (options : Options) (this : Object3D) : Object3D * Flags :=
  fold_left (set_prop options) (keys options) (this, noFlags).

(** [JSON.stringify(options) === JSON.stringify({})]: a property whose value
    is [undefined] is left out of the text, every other value of the model
    is written, so the text is that of the empty object exactly when no
    property has a value other than [undefined]. *)
Definition stringifies_empty (options : Options) : bool :=
  forallb (λ kv, is_undefined kv.2) options.

(** The two special cases after the loop: a truthy [options.fontFamily] or
    [options.fontTexture] goes to the font library and resets the layout
    flag. *)
Definition font_calls (n : nat) (options : Options) : list Event :=
  (if truthy (opt_get options "fontFamily")
   then [SetFontFamily n (opt_get options "fontFamily")] else [])
  ++ (if truthy (opt_get options "fontTexture")
      then [SetFontTexture n (opt_get options "fontTexture")] else []).

Definition layout_after_fonts (options : Options) (layout : JSValue) : JSValue :=
  if truthy (opt_get options "fontFamily") || truthy (opt_get options "fontTexture")
  then VBool false else layout.

(** [set( options )]; [None] for [options] stands for a missing argument. *)
Definition set (fuel : nat) (s : Scene) (n : nat) (options : option Options)
  : option (Scene * list Event) :=
  match options with
  | None => Some (s, [Register n])
  | Some options =>
      if stringifies_empty options then Some (s, [Register n])
      else
        this ← s !! n;
        let '(this', f) := set_loop options this in
        let s' := <[n := this']> s in
        let layout := layout_after_fonts options (layoutNeedsUpdate f) in
        let called :=
          [Register n] ++ font_calls n options
          ++ update n (parsingNeedsUpdate f) layout (innerNeedsUpdate f) in
        if truthy layout then
          top ← getHighestParent fuel s' n;
          Some (s', called ++ update top (VBool false) (VBool true) (VBool false))
        else Some (s', called)
  end.

(** The property names for which the [switch] of [set] has a case. *)
Definition dispatched (prop : string) : bool :=
  one_of prop
    ["content"; "width"; "height"; "padding"; "fontSize"; "interLine";
     "margin"; "contentDirection"; "justifyContent"; "alignContent";
     "textType"; "borderRadius"; "backgroundSize"; "src"; "fontColor";
     "fontOpacity"; "offset"; "backgroundColor"; "backgroundOpacity";
     "backgroundTexture"; "hiddenOverflow"].

(** ** States *)

(** The properties that the object literal [{}] behind [states] inherits
    from [Object.prototype]: reading one of them through [states[ name ]]
    gives a function (or, for [__proto__], the prototype object), which is
    truthy and has neither an [onSet] nor an [attributes] property. *)
Definition Object_prototype_names : list string :=
  ["constructor"; "hasOwnProperty"; "isPrototypeOf"; "propertyIsEnumerable";
   "toLocaleString"; "toString"; "valueOf"; "__proto__";
   "__defineGetter__"; "__defineSetter__"; "__lookupGetter__"; "__lookupSetter__"].

(** [this.states[ state ]]: [None] is [undefined]; an inherited member is
    seen by [setState] as a bundle without [onSet] and [attributes]. *)
Definition states_get (this : Object3D) (state : string) : option StateBundle :=
  match states this !! state with
  | Some saved => Some saved
  | None =>
      if one_of state Object_prototype_names then Some (mkBundle None None)
      else None
  end.

Definition with_states (this : Object3D) (st : gmap string StateBundle) : Object3D :=
  mkObject3D (isUI this) (isBlock this) (isText this) (isInlineBlock this)
    (parent this) (children this) (matrixWorld this)
    (props this) st (currentState this).

Definition with_currentState (this : Object3D) (state : string) : Object3D :=
  mkObject3D (isUI this) (isBlock this) (isText this) (isInlineBlock this)
    (parent this) (children this) (matrixWorld this)
    (props this) (states this) (Some state).

(** What a call of [setupState] leaves behind.  For every name but one
    the assignment [this.states[ name ] = bundle] writes an own property
    of the table, and the component with the new table is a value of
    [Object3D].  For the name [__proto__] the assignment writes no
    property: it makes the bundle the prototype of the table, in place of
    [Object.prototype].  The component keeps its own properties as they
    were; the table with its new prototype is described by the pair of the
    unchanged component and that bundle. *)
Inductive SetupOutcome : Type :=
| Stored (this' : Object3D)
| PrototypeReplaced (this : Object3D) (prototype : StateBundle).

(** [setupState( options )] with [options = { state, attributes, onSet }]. *)
Definition setupState (this : Object3D) (state : string)
    (attrs : option Options) (cb : option nat) : SetupOutcome :=
  if String.eqb state "__proto__"
  then PrototypeReplaced this (mkBundle attrs cb)
  else Stored (with_states this (<[state := mkBundle attrs cb]> (states this))).

Definition dquote : string := String (Ascii.ascii_of_nat 34) EmptyString.

Definition unknown_state_message (state : string) : string :=
  "state " +:+ dquote +:+ state +:+ dquote
  +:+ " does not exist within this component".

(** [setState( state )] *)
Definition setState (fuel : nat) (s : Scene) (n : nat) (state : string)
  : option (Scene * list Event) :=
  this ← s !! n;
  match states_get this state with
  | None => Some (s, [Warn (unknown_state_message state)])
  | Some savedState =>
      if bool_decide (currentState this = Some state) then Some (s, [])
      else
        let s1 := <[n := with_currentState this state]> s in
        let called :=
          match onSet savedState with Some cb => [CallOnSet cb] | None => [] end in
        match attributes savedState with
        | Some attrs =>
            '(s2, more) ← set fuel s1 n (Some attrs);
            Some (s2, called ++ more)
        | None => Some (s1, called)
        end
  end.

(** ** Clipping planes *)

Section Clipping.

Variable DEFAULTS : string → JSValue.

(** The plane type of the host library: [new Plane( new Vector3( x, y, z ),
    constant )] and [plane.applyMatrix4( matrix )]. *)
Variable Plane : Type.
Variable newPlane : Z * Z * Z → JSValue → Plane.
Variable applyMatrix4 : Plane → Matrix4 → Plane.

(** [getHeight()] and [getWidth()] of a box component. *)
Variable getHeight getWidth : Object3D → JSValue.

(** Division and subtraction of JavaScript numbers. *)
Variable js_div js_sub : JSValue → JSValue → JSValue.

(** The four planes built from the parent [par], already moved by its
    world matrix. *)
Definition newPlanes (par : Object3D) : list Plane :=
  let yLimit := js_sub (js_div (getHeight par) (VNum 2))
                       (js_or (own par "padding") (VNum 0)) in
  let xLimit := js_sub (js_div (getWidth par) (VNum 2))
                       (js_or (own par "padding") (VNum 0)) in
  map (λ plane, applyMatrix4 plane (matrixWorld par))
      [ newPlane (0, 1, 0)%Z yLimit;
        newPlane (0, -1, 0)%Z yLimit;
        newPlane (1, 0, 0)%Z xLimit;
        newPlane (-1, 0, 0)%Z xLimit ].

(** [getClippingPlanes()] *)
Fixpoint getClippingPlanes (fuel : nat) (s : Scene) (n : nat) : option (list Plane) :=
  match fuel with
  | 0 => None
  | S fuel' =>
      this ← s !! n;
      match getUIParent s this with
      | Some p =>
          par ← s !! p;
          let own_planes :=
            if isBlock this && truthy (getHiddenOverflow DEFAULTS par)
            then newPlanes par else [] in
          match getUIParent s par with
          | Some _ =>
              inherited ← getClippingPlanes fuel' s p;
              Some (own_planes ++ inherited)
          | None => Some own_planes
          end
      | None => Some []
      end
  end.

(** The local half-spaces as the specification words them: top, bottom,
    left and right, at the parent's half extent less its padding, moved
    by the parent's world matrix; present exactly when the node is a
    block and its parent clips its overflow. *)
Definition spec_half_space (par : Object3D) (normal : Z * Z * Z) (extent : JSValue)
  : Plane :=
  applyMatrix4
    (newPlane normal
       (js_sub (js_div extent (VNum 2)) (js_or (own par "padding") (VNum 0))))
    (matrixWorld par).

Definition spec_local_half_spaces (s : Scene) (this : Object3D) : list Plane :=
  match getUIParent s this with
  | Some p =>
      match s !! p with
      | Some par =>
          if isBlock this && truthy (getHiddenOverflow DEFAULTS par)
          then [ spec_half_space par (0, 1, 0)%Z (getHeight par);
                 spec_half_space par (0, -1, 0)%Z (getHeight par);
                 spec_half_space par (1, 0, 0)%Z (getWidth par);
                 spec_half_space par (-1, 0, 0)%Z (getWidth par) ]
          else []
      | None => []
      end
  | None => []
  end.

End Clipping.

(** The clipping planes of a node as the specification composes them: the
    local half-spaces of the node, then those of its UI parents in order,
    nearest first. *)
Definition spec_clipping_planes (DEFAULTS : string → JSValue) (Plane : Type)
    (newPlane : Z * Z * Z → JSValue → Plane)
    (applyMatrix4 : Plane → Matrix4 → Plane)
    (getHeight getWidth : Object3D → JSValue)
    (js_div js_sub : JSValue → JSValue → JSValue)
    (s : Scene) (nodes : list nat) : list Plane :=
  flat_map
    (λ a, match s !! a with
          | Some o =>
              spec_local_half_spaces DEFAULTS Plane newPlane applyMatrix4
                getHeight getWidth js_div js_sub s o
          | None => []
          end)
    nodes.

(** ** Shape of the scene graph *)

(** [l] is the chain of UI parents of [n], nearest first, up to the highest
    one. *)
Fixpoint is_ui_chain (s : Scene) (n : nat) (l : list nat) : bool :=
  match s !! n with
  | None => false
  | Some this =>
      match getUIParent s this, l with
      | None, [] => true
      | Some p, a :: l' => bool_decide (p = a) && is_ui_chain s a l'
      | _, _ => false
      end
  end.

(** The subtree below [n] is in the store and has fewer than [h] levels. *)
Fixpoint subtree_within (h : nat) (s : Scene) (n : nat) : bool :=
  match h with
  | 0 => false
  | S h' =>
      match s !! n with
      | None => false
      | Some this => forallb (subtree_within h' s) (children this)
      end
  end.

(** [d] is [n] or is reached from [n] through [children]. *)
Inductive Descendant (s : Scene) : nat → nat → Prop :=
| desc_self n : Descendant s n n
| desc_child n this c d :
    s !! n = Some this → In c (children this) → Descendant s c d →
    Descendant s n d.

(** [this[propName]] for the object stored under [n]. *)
Definition own_at (s : Scene) (n : nat) (propName : string) : JSValue :=
  match s !! n with Some this => own this propName | None => VUndefined end.

(** The getters without parents lookup, by property name. *)
Inductive LocalProperty : Type :=
| backgroundColor | backgroundOpacity | backgroundTexture | backgroundSize
| alignContent | contentDirection | justifyContent | interLine | offset
| hiddenOverflow.

Definition local_name (q : LocalProperty) : string :=
  match q with
  | backgroundColor => "backgroundColor"
  | backgroundOpacity => "backgroundOpacity"
  | backgroundTexture => "backgroundTexture"
  | backgroundSize => "backgroundSize"
  | alignContent => "alignContent"
  | contentDirection => "contentDirection"
  | justifyContent => "justifyContent"
  | interLine => "interLine"
  | offset => "offset"
  | hiddenOverflow => "hiddenOverflow"
  end.

Definition local_getter (DEFAULTS : string → JSValue) (q : LocalProperty)
  : Object3D → JSValue :=
  match q with
  | backgroundColor => getBackgroundColor DEFAULTS
  | backgroundOpacity => getBackgroundOpacity DEFAULTS
  | backgroundTexture => getBackgroundTexture DEFAULTS
  | backgroundSize => getBackgroundSize DEFAULTS
  | alignContent => getAlignContent DEFAULTS
  | contentDirection => getContentDirection DEFAULTS
  | justifyContent => getJustifyContent DEFAULTS
  | interLine => getInterLine DEFAULTS
  | offset => getOffset DEFAULTS
  | hiddenOverflow => getHiddenOverflow DEFAULTS
  end.

(** The getters that go through [_getProperty], by property name. *)
Definition cascading_names : list string :=
  ["fontSize"; "fontTexture"; "fontFamily"; "breakOn"; "textType";
   "fontColor"; "fontOpacity"; "borderRadius"].

(** ** A small scene used to run the definitions *)

(** A defaults table with a few entries of the vocabulary. *)
Definition sampleDefaults (propName : string) : JSValue :=
  if String.eqb propName "fontSize" then VNum (1 # 20)
  else if String.eqb propName "fontOpacity" then VNum 1
  else if String.eqb propName "backgroundOpacity" then VNum 1
  else if String.eqb propName "backgroundColor" then VObj 100
  else if String.eqb propName "hiddenOverflow" then VBool false
  else if String.eqb propName "interLine" then VNum (1 # 100)
  else VUndefined.

Definition identity4 : Matrix4 :=
  [1; 0; 0; 0; 0; 1; 0; 0; 0; 0; 1; 0; 0; 0; 0; 1]%Q.

(** Object 0 is the host scene (not a UI node); 1 is a block that clips
    its overflow and sets a font size; 2 is a block inside it with two
    states; 3 is a text inside 2. *)
Definition sampleRoot : Object3D :=
  mkObject3D false false false false None [1] identity4 ∅ ∅ None.

Definition sampleContainer : Object3D :=
  mkObject3D true true false false (Some 0) [2] identity4
    (<["hiddenOverflow" := VBool true]> (<["fontSize" := VNum 12]> ∅)) ∅ None.

Definition samplePanel : Object3D :=
  mkObject3D true true false false (Some 1) [3] identity4 ∅
    (<["hover" := mkBundle (Some [("backgroundColor", VObj 7)]) (Some 0)]>
       (<["wide" := mkBundle (Some [("width", VNum 2)]) None]> ∅))
    None.

Definition sampleText : Object3D :=
  mkObject3D true false true false (Some 2) [] identity4 ∅ ∅ None.

Definition sampleScene : Scene :=
  <[0 := sampleRoot]> (<[1 := sampleContainer]>
    (<[2 := samplePanel]> (<[3 := sampleText]> ∅))).

(** Planes as terms over the two operations of the host library, and
    arithmetic on the finite numbers, to run [getClippingPlanes]. *)
Inductive PlaneTerm : Type :=
| PNew (normal : Z * Z * Z) (constant : JSValue)
| PApply (plane : PlaneTerm) (matrix : Matrix4).

Definition sample_div (a b : JSValue) : JSValue :=
  match a, b with VNum x, VNum y => VNum (Qred (x / y)) | _, _ => VNaN end.

Definition sample_sub (a b : JSValue) : JSValue :=
  match a, b with VNum x, VNum y => VNum (Qred (x - y)) | _, _ => VNaN end.

Definition sample_extent (propName : string) (this : Object3D) : JSValue :=
  js_or (own this propName) (VNum 1).

Definition sampleClippingPlanes (fuel : nat) (s : Scene) (n : nat)
  : option (list PlaneTerm) :=
  getClippingPlanes sampleDefaults PlaneTerm PNew PApply
    (sample_extent "height") (sample_extent "width") sample_div sample_sub
    fuel s n.

(** What the graph walks read of an object: its tag, its parent and its
    children. *)
Definition shape (o : Object3D) : bool * option nat * list nat :=
  (isUI o, parent o, children o).

(** Everything of an object except its attribute values. *)
Definition frame (o : Object3D) :=
  (isUI o, isBlock o, isText o, isInlineBlock o, parent o, children o,
   matrixWorld o, states o, currentState o).

(** Two stores hold objects of the same shape under the same keys. *)
Definition same_shape (s s' : Scene) : Prop :=
  ∀ k, shape <$> (s !! k) = shape <$> (s' !! k).

(** The highest UI parent along a chain: its last entry, or the node itself
    when the chain is empty. *)
Definition chain_top (n : nat) (l : list nat) : nat := List.last l n.

(** The keys whose case in the [switch] of [set] turns the layout flag on. *)
Definition requests_layout (prop : string) : bool :=
  one_of prop
    ["content"; "width"; "height"; "padding"; "fontSize"; "interLine";
     "margin"; "contentDirection"; "justifyContent"; "alignContent";
     "textType"; "borderRadius"; "backgroundSize"; "src"].

(** ** The remaining functions of the component *)

(** What [getContainer] returns: a component, or [DEFAULTS.container]. *)
Inductive Container : Type :=
| ContainerIs (n : nat)
| ContainerDefault (v : JSValue).

(** [getContainer()].  [threeOBJ] is read as an own property.  The
    recursion goes to [this.parent] whatever that object is; the method
    exists on UI components only, so calling it on another object is a
    TypeError, rendered as [None] like the overflow of the stack. *)
Fixpoint getContainer (DEFAULTS : string → JSValue)
    (fuel : nat) (s : Scene) (n : nat) : option Container :=
  match fuel with
  | 0 => None
  | S fuel' =>
      this ← s !! n;
      if isUI this then
        if negb (truthy (own this "threeOBJ")) && bool_decide (is_Some (parent this))
        then p ← parent this; getContainer DEFAULTS fuel' s p
        else if truthy (own this "threeOBJ") then Some (ContainerIs n)
        else Some (ContainerDefault (DEFAULTS "container"))
      else None
  end.

(** The calls that [clear] makes, in call order. *)
Inductive Disposal : Type :=
| DisposeOf (obj : nat)
    (** [UpdateManager.disposeOf( obj )] *)
| DisposeMaterial (obj : nat)
    (** [obj.material.dispose()] *)
| DisposeGeometry (obj : nat)
    (** [obj.geometry.dispose()] *).

(** The callback that [clear] hands to [traverse]; [material] and
    [geometry] are read as own properties of the visited object. *)
Definition clear_visit (s : Scene) (obj : nat) : list Disposal :=
  [DisposeOf obj]
  ++ (if truthy (own_at s obj "material") then [DisposeMaterial obj] else [])
  ++ (if truthy (own_at s obj "geometry") then [DisposeGeometry obj] else []).

(** [clear()] *)
Definition clear (fuel : nat) (s : Scene) (n : nat) : option (list Disposal) :=
  visited ← traverse fuel s n;
  Some (flat_map (clear_visit s) visited).

(** The keys whose case in the [switch] of [set] turns the parsing flag on,
    for a component with the role tags of [this]. *)
Definition requests_parsing (this : Object3D) (prop : string) : bool :=
  (String.eqb prop "content" && isText this)
  || (one_of prop ["width"; "height"; "padding"] && isInlineBlock this).

(** The keys whose case turns the inner flag on. *)
Definition requests_inner (prop : string) : bool :=
  one_of prop ["fontColor"; "fontOpacity"; "offset"; "backgroundColor";
               "backgroundOpacity"; "backgroundTexture"].

(** When a getter without parents lookup answers the own value [v] rather
    than the default: the test that its body makes. *)
Definition local_honours (q : LocalProperty) (v : JSValue) : bool :=
  match q with
  | interLine | offset | backgroundSize | hiddenOverflow => negb (is_undefined v)
  | backgroundOpacity => truthy v || negb (strict_neq_zero v)
  | backgroundColor | backgroundTexture | alignContent | contentDirection
  | justifyContent => truthy v
  end.

(** A second scene: a component that carries a renderable payload and a
    material, with a child component and a mesh below it. *)
Definition sampleFrame : Object3D :=
  mkObject3D true true false false None [11; 12] identity4
    (<["threeOBJ" := VObj 50]> (<["material" := VObj 51]> ∅)) ∅ None.

Definition sampleLabel : Object3D :=
  mkObject3D true false true false (Some 10) [] identity4
    (<["breakOn" := VStr "-"]> ∅) ∅ None.

Definition sampleMesh : Object3D :=
  mkObject3D false false false false (Some 10) [] identity4
    (<["geometry" := VObj 52]> ∅) ∅ None.

Definition sampleScene2 : Scene :=
  <[10 := sampleFrame]> (<[11 := sampleLabel]> (<[12 := sampleMesh]> ∅)).

(** * Properties *)

(** ** The definitions run on the sample scene *)

Example sample_clipping_of_panel :
  sampleClippingPlanes 3 sampleScene 2
  = Some [ PApply (PNew (0, 1, 0)%Z (VNum (1 # 2))) identity4;
           PApply (PNew (0, -1, 0)%Z (VNum (1 # 2))) identity4;
           PApply (PNew (1, 0, 0)%Z (VNum (1 # 2))) identity4;
           PApply (PNew (-1, 0, 0)%Z (VNum (1 # 2))) identity4 ].
Proof. vm_compute. reflexivity. Qed.

Example sample_clipping_of_text_in_clipping_panel :
  sampleClippingPlanes 3 (assign sampleScene 2 "hiddenOverflow" (VBool true)) 3
  = sampleClippingPlanes 3 sampleScene 2.
Proof. vm_compute. reflexivity. Qed.

Example sample_parents_number :
  getParentsNumber 3 sampleScene 3 None = Some 2%N.
Proof. vm_compute. reflexivity. Qed.

Example sample_parents_number_rounds :
  getParentsNumber 3 sampleScene 3 (Some 9007199254740992%N)
  = Some 9007199254740992%N.
Proof. vm_compute. reflexivity. Qed.

Example sample_fontSize_of_text :
  getFontSize sampleDefaults 3 sampleScene 3 = Some (VNum 12).
Proof. vm_compute. reflexivity. Qed.

Example sample_chain_of_text : is_ui_chain sampleScene 3 [2; 1] = true.
Proof. vm_compute. reflexivity. Qed.

Example sample_font_family_ready :
  snd <$> _updateFontFamily 3 sampleScene 2 (VObj 9)
  = Some [ RequestUpdate 2 (VBool true) (VBool true) (VBool false);
           RequestUpdate 3 (VBool true) (VBool true) (VBool false);
           RequestUpdate 1 (VBool false) (VBool true) (VBool false) ].
Proof. vm_compute. reflexivity. Qed.

Example sample_setState_unknown :
  setState 3 sampleScene 2 "pressed"
  = Some (sampleScene,
          [Warn ("state " +:+ dquote +:+ "pressed" +:+ dquote
                 +:+ " does not exist within this component")]).
Proof. vm_compute. reflexivity. Qed.

Example sample_set_width :
  snd <$> set 3 sampleScene 3 (Some [("width", VNum 2)])
  = Some [ Register 3;
           RequestUpdate 3 VUndefined (VBool true) VUndefined;
           RequestUpdate 1 (VBool false) (VBool true) (VBool false) ].
Proof. vm_compute. reflexivity. Qed.

(** ** Reading and writing own properties *)

Lemma own_write_eq this propName v : own (write this propName v) propName = v.
Proof. unfold own, write; simpl. by rewrite lookup_insert_eq. Qed.

Lemma own_write_ne this propName k v :
  propName ≠ k → own (write this propName v) k = own this k.
Proof. intros Hne. unfold own, write; simpl. by rewrite lookup_insert_ne. Qed.

Lemma assign_lookup_eq s n this propName v :
  s !! n = Some this →
  assign s n propName v !! n = Some (write this propName v).
Proof. intros H. unfold assign. rewrite H. apply lookup_insert_eq. Qed.

Lemma assign_lookup_ne s n k propName v :
  n ≠ k → assign s n propName v !! k = s !! k.
Proof.
  intros Hne. unfold assign. destruct (s !! n); [|done].
  by apply lookup_insert_ne.
Qed.

Lemma own_at_assign_eq s n this propName v :
  s !! n = Some this → own_at (assign s n propName v) n propName = v.
Proof.
  intros H. unfold own_at. rewrite (assign_lookup_eq _ _ _ _ _ H).
  apply own_write_eq.
Qed.

(** ** The UI parent *)

Lemma getUIParent_Some s this p :
  getUIParent s this = Some p →
  parent this = Some p ∧ ∃ po, s !! p = Some po ∧ isUI po = true.
Proof.
  unfold getUIParent. destruct (parent this) as [q|]; [|done].
  destruct (s !! q) as [po|] eqn:Hq; [|done].
  destruct (isUI po) eqn:Hui; [|done].
  intros [= <-]. eauto.
Qed.

Lemma is_ui_chain_nil s n :
  is_ui_chain s n [] = true →
  ∃ this, s !! n = Some this ∧ getUIParent s this = None.
Proof.
  simpl. destruct (s !! n) as [this|]; [|done].
  destruct (getUIParent s this) eqn:Hp; [done|]. intros _. eauto.
Qed.

Lemma is_ui_chain_cons s n a l :
  is_ui_chain s n (a :: l) = true →
  ∃ this, s !! n = Some this ∧ getUIParent s this = Some a
          ∧ is_ui_chain s a l = true.
Proof.
  simpl. destruct (s !! n) as [this|]; [|done].
  destruct (getUIParent s this) as [p|] eqn:Hpar; [|done].
  intros [Hp Hl]%andb_true_iff. apply bool_decide_eq_true in Hp as ->. eauto.
Qed.

(** ** Resolution of a cascading property *)

Section Resolution.

Variable DEFAULTS : string → JSValue.

(** An own value that is truthy is what the lookup returns. *)
Lemma _getProperty_own_truthy fuel s n this propName :
  s !! n = Some this → truthy (own this propName) = true →
  _getProperty DEFAULTS (S fuel) s n propName = Some (own this propName).
Proof.
  intros Hn Ht. simpl. rewrite Hn; simpl.
  destruct (own this propName); simpl in *; try done; by rewrite Ht.
Qed.

(** An own value that is defined but falsy stops the lookup, and the
    default is returned in its place. *)
Lemma _getProperty_own_falsy fuel s n this propName :
  s !! n = Some this →
  is_undefined (own this propName) = false →
  truthy (own this propName) = false →
  _getProperty DEFAULTS (S fuel) s n propName = Some (DEFAULTS propName).
Proof.
  intros Hn Hu Ht. simpl. rewrite Hn; simpl. by rewrite Hu, Ht.
Qed.

(** A node without an own value answers what its UI parent answers. *)
Lemma _getProperty_inherit fuel s n this p propName :
  s !! n = Some this → own this propName = VUndefined →
  getUIParent s this = Some p →
  _getProperty DEFAULTS (S fuel) s n propName
  = _getProperty DEFAULTS fuel s p propName.
Proof.
  intros Hn Hu Hp. simpl. rewrite Hn; simpl. rewrite Hu, Hp; simpl.
  apply getUIParent_Some in Hp as [-> _]. done.
Qed.

(** A node without an own value and without UI parent answers the
    default. *)
Lemma _getProperty_top fuel s n this propName :
  s !! n = Some this → own this propName = VUndefined →
  getUIParent s this = None →
  _getProperty DEFAULTS (S fuel) s n propName = Some (DEFAULTS propName).
Proof.
  intros Hn Hu Hp. simpl. rewrite Hn; simpl. by rewrite Hu, Hp.
Qed.

(** C3: a node that has no own value for a property, below a chain of UI
    parents none of which has one, resolves the property to the
    process-wide default. *)
Theorem resolve_unset_chain_gives_default fuel s n l propName :
  is_ui_chain s n l = true →
  length l < fuel →
  own_at s n propName = VUndefined →
  Forall (λ a, own_at s a propName = VUndefined) l →
  _getProperty DEFAULTS fuel s n propName = Some (DEFAULTS propName).
Proof.
  revert fuel n. induction l as [|a l IH]; intros fuel n Hc Hf Hn Hl.
  - destruct fuel as [|fuel]; [simpl in Hf; lia|].
    apply is_ui_chain_nil in Hc as (this & Hthis & Hp).
    unfold own_at in Hn. rewrite Hthis in Hn.
    by apply _getProperty_top with this.
  - destruct fuel as [|fuel]; [simpl in Hf; lia|].
    apply is_ui_chain_cons in Hc as (this & Hthis & Hp & Hc).
    unfold own_at in Hn. rewrite Hthis in Hn.
    rewrite (_getProperty_inherit _ _ _ this a) by done.
    inversion_clear Hl as [|? ? Ha Hl'].
    apply IH; [done | simpl in Hf; lia | done | done].
Qed.

End Resolution.

(** The C3 statement at the text of the sample scene, for a property that
    nothing in the scene sets. *)
Lemma resolve_unset_chain_gives_default_witness :
  _getProperty sampleDefaults 3 sampleScene 3 "fontOpacity"
  = Some (sampleDefaults "fontOpacity").
Proof.
  apply (resolve_unset_chain_gives_default sampleDefaults 3 sampleScene 3 [2; 1]).
  - vm_compute. reflexivity.
  - simpl. lia.
  - vm_compute. reflexivity.
  - repeat constructor.
Defined.

(** A child without own value, directly below a node whose own value is
    truthy, resolves to that value. *)
Lemma _getProperty_child_of_truthy DEFAULTS fuel s c child n this propName :
  s !! c = Some child → own child propName = VUndefined →
  getUIParent s child = Some n →
  s !! n = Some this → truthy (own this propName) = true →
  _getProperty DEFAULTS (S (S fuel)) s c propName = Some (own this propName).
Proof.
  intros Hc Hu Hp Hn Ht.
  rewrite (_getProperty_inherit DEFAULTS _ _ _ child n) by done.
  by apply _getProperty_own_truthy.
Qed.

(** C1, at a falsy value: after [node.fontOpacity = 0] on the panel of the
    sample scene, the panel has the own value 0, and yet the resolution of
    fontOpacity on the panel, and on the text below it that has no own
    value, returns the entry of the defaults table, whatever the table
    is. *)
Theorem zero_override_resolves_to_default :
  ∀ (DEFAULTS : string → JSValue) (fuel : nat),
    own_at (assign sampleScene 2 "fontOpacity" (VNum 0)) 2 "fontOpacity" = VNum 0
    ∧ own_at (assign sampleScene 2 "fontOpacity" (VNum 0)) 3 "fontOpacity"
      = VUndefined
    ∧ getFontOpacity DEFAULTS (S fuel)
        (assign sampleScene 2 "fontOpacity" (VNum 0)) 2
      = Some (DEFAULTS "fontOpacity")
    ∧ getFontOpacity DEFAULTS (S (S fuel))
        (assign sampleScene 2 "fontOpacity" (VNum 0)) 3
      = Some (DEFAULTS "fontOpacity").
Proof.
  intros DEFAULTS fuel. repeat split; vm_compute; reflexivity.
Qed.

(** The same with the empty string as the own value. *)
Lemma empty_string_override_resolves_to_default :
  ∀ (DEFAULTS : string → JSValue) (fuel : nat),
    getTextType DEFAULTS (S fuel) (assign sampleScene 2 "textType" (VStr "")) 2
    = Some (DEFAULTS "textType").
Proof. intros DEFAULTS fuel. vm_compute. reflexivity. Qed.

(** No defaults table makes the lookup return every defined own value:
    0 and the empty string cannot both be the default of fontOpacity. *)
Lemma defined_override_not_always_resolved (DEFAULTS : string → JSValue) :
  ¬ (∀ v, is_undefined v = false →
       getFontOpacity DEFAULTS 1 (assign sampleScene 2 "fontOpacity" v) 2
       = Some v).
Proof.
  intros H.
  pose proof (H (VNum 0) eq_refl) as H0.
  pose proof (H (VStr "") eq_refl) as H1.
  vm_compute in H0, H1. congruence.
Qed.

(** ** Getters with no parents lookup *)

(** Without an own value each of the ten getters answers the default. *)
Lemma local_getter_unset DEFAULTS (q : LocalProperty) (this : Object3D) :
  own this (local_name q) = VUndefined →
  local_getter DEFAULTS q this = DEFAULTS (local_name q).
Proof.
  destruct q; simpl; intros H;
    unfold getBackgroundColor, getBackgroundOpacity, getBackgroundTexture,
      getBackgroundSize, getAlignContent, getContentDirection,
      getJustifyContent, getInterLine, getOffset, getHiddenOverflow, js_or;
    rewrite H; reflexivity.
Qed.

(** ** Walks of the graph depend on the shape of the store only *)

Lemma same_shape_refl s : same_shape s s.
Proof. intros k. reflexivity. Qed.

Lemma same_shape_sym s s' : same_shape s s' → same_shape s' s.
Proof. intros H k. symmetry. apply H. Qed.

Lemma same_shape_trans s1 s2 s3 :
  same_shape s1 s2 → same_shape s2 s3 → same_shape s1 s3.
Proof. intros H1 H2 k. rewrite H1. apply H2. Qed.

Lemma same_shape_insert s n o o' :
  s !! n = Some o → shape o' = shape o → same_shape s (<[n := o']> s).
Proof.
  intros Hn Hs k. destruct (decide (n = k)) as [<-|Hne].
  - rewrite lookup_insert_eq, Hn. simpl. by rewrite Hs.
  - by rewrite lookup_insert_ne.
Qed.

Lemma same_shape_lookup s s' k o :
  same_shape s s' → s !! k = Some o →
  ∃ o', s' !! k = Some o' ∧ shape o' = shape o.
Proof.
  intros H Hk. specialize (H k). rewrite Hk in H. simpl in H.
  destruct (s' !! k) as [o'|]; [|done].
  injection H as H1 H2 H3.
  exists o'. split; [done|]. unfold shape. congruence.
Qed.

Lemma same_shape_lookup_None s s' k :
  same_shape s s' → s !! k = None → s' !! k = None.
Proof.
  intros H Hk. specialize (H k). rewrite Hk in H. simpl in H.
  destruct (s' !! k); [done|done].
Qed.

Lemma isUI_at_same_shape s s' k : same_shape s s' → isUI_at s k = isUI_at s' k.
Proof.
  intros H. unfold isUI_at. destruct (s !! k) as [o|] eqn:Hk.
  - destruct (same_shape_lookup _ _ _ _ H Hk) as (o' & -> & Ho').
    unfold shape in Ho'. congruence.
  - by rewrite (same_shape_lookup_None _ _ _ H Hk).
Qed.

Lemma getUIParent_same_shape s s' o o' :
  same_shape s s' → shape o' = shape o → getUIParent s o = getUIParent s' o'.
Proof.
  intros H Ho. unfold getUIParent.
  assert (parent o' = parent o) as -> by (unfold shape in Ho; congruence).
  destruct (parent o) as [p|]; [|done].
  pose proof (isUI_at_same_shape _ _ p H) as Hui. unfold isUI_at in Hui.
  destruct (s !! p) as [po|], (s' !! p) as [po'|]; try done.
  - by rewrite Hui.
  - by destruct (isUI po).
  - by destruct (isUI po').
Qed.

Lemma getHighestParent_same_shape fuel s s' n :
  same_shape s s' → getHighestParent fuel s n = getHighestParent fuel s' n.
Proof.
  intros H. revert n. induction fuel as [|fuel IH]; intros n; [done|].
  simpl. destruct (s !! n) as [o|] eqn:Hn.
  - destruct (same_shape_lookup _ _ _ _ H Hn) as (o' & -> & Ho'). simpl.
    rewrite <- (getUIParent_same_shape s s' o o' H Ho').
    destruct (getUIParent s o); [|done].
    assert (parent o' = parent o) as -> by (unfold shape in Ho'; congruence).
    destruct (parent o); simpl; [apply IH | done].
  - by rewrite (same_shape_lookup_None _ _ _ H Hn).
Qed.

Lemma is_ui_chain_same_shape s s' n l :
  same_shape s s' → is_ui_chain s n l = is_ui_chain s' n l.
Proof.
  intros H. revert n. induction l as [|a l IH]; intros n; simpl.
  - destruct (s !! n) as [o|] eqn:Hn.
    + destruct (same_shape_lookup _ _ _ _ H Hn) as (o' & -> & Ho').
      by rewrite <- (getUIParent_same_shape s s' o o' H Ho').
    + by rewrite (same_shape_lookup_None _ _ _ H Hn).
  - destruct (s !! n) as [o|] eqn:Hn.
    + destruct (same_shape_lookup _ _ _ _ H Hn) as (o' & -> & Ho').
      rewrite <- (getUIParent_same_shape s s' o o' H Ho').
      destruct (getUIParent s o); [|done]. by rewrite IH.
    + by rewrite (same_shape_lookup_None _ _ _ H Hn).
Qed.

Lemma traverse_same_shape fuel s s' n :
  same_shape s s' → traverse fuel s n = traverse fuel s' n.
Proof.
  intros H. revert n. induction fuel as [|fuel IH]; intros n; [done|].
  simpl. destruct (s !! n) as [o|] eqn:Hn.
  - destruct (same_shape_lookup _ _ _ _ H Hn) as (o' & -> & Ho'). simpl.
    assert (children o' = children o) as -> by (unfold shape in Ho'; congruence).
    assert (mapM (traverse fuel s) (children o)
            = mapM (traverse fuel s') (children o)) as ->; [|done].
    induction (children o) as [|c cs IHcs]; [done|].
    simpl. rewrite IH. by rewrite IHcs.
  - by rewrite (same_shape_lookup_None _ _ _ H Hn).
Qed.

(** ** The highest parent *)

Local Arguments chain_top : simpl never.

Lemma chain_top_cons n a l : chain_top n (a :: l) = chain_top a l.
Proof.
  unfold chain_top. revert n a. induction l as [|b l IH]; intros n a; [done|].
  change (List.last (a :: b :: l) n) with (List.last (b :: l) n).
  by rewrite (IH n b), (IH a b).
Qed.

(** Along a chain of UI parents that fits the stack, [getHighestParent]
    returns the last entry of the chain. *)
Lemma getHighestParent_chain fuel s n l :
  is_ui_chain s n l = true → length l < fuel →
  getHighestParent fuel s n = Some (chain_top n l).
Proof.
  revert fuel n. induction l as [|a l IH]; intros fuel n Hc Hf;
    (destruct fuel as [|fuel]; [simpl in Hf; lia|]).
  - apply is_ui_chain_nil in Hc as (this & Hthis & Hp).
    simpl. rewrite Hthis; simpl. by rewrite Hp.
  - apply is_ui_chain_cons in Hc as (this & Hthis & Hp & Hc).
    simpl getHighestParent. rewrite Hthis; simpl. rewrite Hp.
    apply getUIParent_Some in Hp as [-> _]. simpl.
    rewrite (IH fuel a Hc) by (simpl in Hf; lia).
    by rewrite chain_top_cons.
Qed.

(** The highest parent has no UI parent of its own. *)
Lemma chain_top_is_top s n l :
  is_ui_chain s n l = true →
  ∃ top, s !! chain_top n l = Some top ∧ getUIParent s top = None.
Proof.
  revert n. induction l as [|a l IH]; intros n Hc.
  - apply is_ui_chain_nil in Hc. exact Hc.
  - apply is_ui_chain_cons in Hc as (this & Hthis & Hp & Hc).
    destruct (IH a Hc) as (top & Htop & Hnone).
    exists top. split; [|done]. by rewrite chain_top_cons.
Qed.

(** ** The loop of [set] *)

Lemma frame_shape o o' : frame o' = frame o → shape o' = shape o.
Proof. unfold frame, shape. congruence. Qed.

Lemma frame_write this propName v : frame (write this propName v) = frame this.
Proof. reflexivity. Qed.

(** One turn of the loop writes attribute values only. *)
Lemma set_prop_frame options acc prop :
  frame (set_prop options acc prop).1 = frame acc.1.
Proof.
  destruct acc as [this f]. unfold set_prop.
  repeat (match goal with |- context [if ?b then _ else _] => destruct b end);
    reflexivity.
Qed.

(** One turn of the loop leaves every property but [prop] as it was. *)
Lemma set_prop_own_ne options acc prop k :
  prop ≠ k → own (set_prop options acc prop).1 k = own acc.1 k.
Proof.
  intros Hne. destruct acc as [this f]. unfold set_prop.
  repeat (match goal with |- context [if ?b then _ else _] => destruct b end);
    simpl; try reflexivity; by apply own_write_ne.
Qed.

(** The [switch] has no case for a property outside its five groups. *)
Lemma set_prop_not_dispatched options acc prop :
  dispatched prop = false → set_prop options acc prop = acc.
Proof.
  intros H. destruct acc as [this f]. unfold set_prop, dispatched, one_of in *.
  simpl in H. repeat (apply orb_false_iff in H as [? H]).
  simpl. by repeat (match goal with Hx : _ = false |- _ => rewrite Hx; clear Hx end).
Qed.

Lemma set_prop_own options acc prop k :
  dispatched k = false → own (set_prop options acc prop).1 k = own acc.1 k.
Proof.
  intros Hk. destruct (decide (prop = k)) as [->|Hne].
  - by rewrite set_prop_not_dispatched.
  - by apply set_prop_own_ne.
Qed.

Lemma fold_set_prop_frame options ks acc :
  frame (fold_left (set_prop options) ks acc).1 = frame acc.1.
Proof.
  revert acc. induction ks as [|k ks IH]; intros acc; [done|].
  simpl. rewrite IH. apply set_prop_frame.
Qed.

Lemma fold_set_prop_own options ks acc k :
  dispatched k = false →
  own (fold_left (set_prop options) ks acc).1 k = own acc.1 k.
Proof.
  intros Hk. revert acc. induction ks as [|p ks IH]; intros acc; [done|].
  simpl. rewrite IH. by apply set_prop_own.
Qed.

Lemma set_loop_frame options this : frame (set_loop options this).1 = frame this.
Proof. apply fold_set_prop_frame. Qed.

Lemma set_loop_own options this k :
  dispatched k = false → own (set_loop options this).1 k = own this k.
Proof. apply fold_set_prop_own. Qed.

(** An options object with a truthy entry does not stringify to the text
    of the empty object. *)
Lemma truthy_entry_not_empty options k :
  truthy (opt_get options k) = true → stringifies_empty options = false.
Proof.
  induction options as [|[k' v] rest IH]; simpl; [done|].
  destruct (String.eqb k' k).
  - intros Ht. by destruct v.
  - intros Ht. rewrite (IH Ht). apply andb_false_r.
Qed.

(** ** What [set] does, case by case *)

(** The abort: only the registration happens. *)
Lemma set_abort fuel s n options :
  stringifies_empty options = true →
  set fuel s n (Some options) = Some (s, [Register n]).
Proof. intros H. unfold set. by rewrite H. Qed.

(** No layout requested after the font cases: the call ends with the update
    of the component itself. *)
Lemma set_without_layout fuel s n this options :
  s !! n = Some this →
  stringifies_empty options = false →
  truthy (layout_after_fonts options (layoutNeedsUpdate (set_loop options this).2))
  = false →
  set fuel s n (Some options)
  = Some (<[n := (set_loop options this).1]> s,
          [Register n] ++ font_calls n options
          ++ update n (parsingNeedsUpdate (set_loop options this).2)
               (layout_after_fonts options
                  (layoutNeedsUpdate (set_loop options this).2))
               (innerNeedsUpdate (set_loop options this).2)).
Proof.
  intros Hn He Hl. unfold set. rewrite He, Hn. simpl.
  destruct (set_loop options this) as [this' f] eqn:Hloop. simpl in *.
  by rewrite Hl.
Qed.

(** Layout requested: a second update goes to the highest parent. *)
Lemma set_with_layout fuel s n this options l :
  s !! n = Some this →
  is_ui_chain s n l = true → length l < fuel →
  stringifies_empty options = false →
  truthy (layout_after_fonts options (layoutNeedsUpdate (set_loop options this).2))
  = true →
  set fuel s n (Some options)
  = Some (<[n := (set_loop options this).1]> s,
          [Register n] ++ font_calls n options
          ++ update n (parsingNeedsUpdate (set_loop options this).2)
               (layout_after_fonts options
                  (layoutNeedsUpdate (set_loop options this).2))
               (innerNeedsUpdate (set_loop options this).2)
          ++ update (chain_top n l) (VBool false) (VBool true) (VBool false)).
Proof.
  intros Hn Hc Hf He Hl. unfold set. rewrite He, Hn. simpl.
  pose proof (set_loop_frame options this) as Hfr.
  destruct (set_loop options this) as [this' f] eqn:Hloop. simpl in *.
  rewrite Hl.
  assert (same_shape s (<[n := this']> s)) as Hsh
    by (eapply same_shape_insert; [done | by apply frame_shape]).
  rewrite <- (getHighestParent_same_shape fuel s _ n Hsh).
  rewrite (getHighestParent_chain fuel s n l Hc Hf). simpl.
  do 2 f_equal. by rewrite <- !app_assoc.
Qed.

(** [set] always returns when the chain of UI parents fits the stack, and
    what it stores differs from the old store at the component only, in
    attribute values only. *)
Lemma set_total fuel s n this options l :
  s !! n = Some this →
  is_ui_chain s n l = true → length l < fuel →
  ∃ s' called,
    set fuel s n options = Some (s', called)
    ∧ (s' = s ∨ ∃ this', s' = <[n := this']> s ∧ frame this' = frame this).
Proof.
  intros Hn Hc Hf. destruct options as [options|]; [|simpl; eauto].
  destruct (stringifies_empty options) eqn:He.
  - rewrite set_abort by done. eauto.
  - destruct (truthy (layout_after_fonts options
                 (layoutNeedsUpdate (set_loop options this).2))) eqn:Hl.
    + rewrite (set_with_layout fuel s n this options l) by done.
      do 2 eexists. split; [done|]. right. eexists. split; [done|].
      apply set_loop_frame.
    + rewrite (set_without_layout fuel s n this options) by done.
      do 2 eexists. split; [done|]. right. eexists. split; [done|].
      apply set_loop_frame.
Qed.

(** [set] on a component leaves the other objects of the store alone. *)
Lemma set_other_untouched fuel s n options s' called k :
  set fuel s n options = Some (s', called) → n ≠ k → s' !! k = s !! k.
Proof.
  intros H Hne. unfold set in H.
  destruct options as [options|]; [|by injection H as <- _].
  destruct (stringifies_empty options); [by injection H as <- _|].
  destruct (s !! n) as [this|]; [|done]. simpl in H.
  destruct (set_loop options this) as [this' f].
  destruct (truthy _).
  - destruct (getHighestParent _ _ _); [|done]. simpl in H.
    injection H as <- _. by apply lookup_insert_ne.
  - injection H as <- _. by apply lookup_insert_ne.
Qed.

(** The layout flag after the loop is [true] when some key is of a layout
    group and is still [undefined] otherwise. *)
Lemma fold_set_prop_layout options ks acc :
  layoutNeedsUpdate (fold_left (set_prop options) ks acc).2
  = if existsb requests_layout ks then VBool true else layoutNeedsUpdate acc.2.
Proof.
  revert acc. induction ks as [|k ks IH]; intros acc; [done|].
  simpl. rewrite IH. destruct acc as [this f].
  unfold set_prop, requests_layout, one_of. simpl.
  repeat (match goal with |- context [String.eqb k ?x] =>
            destruct (String.eqb k x); simpl; try by destruct (existsb _ ks)
          end).
Qed.

Lemma set_loop_layout options this :
  layoutNeedsUpdate (set_loop options this).2
  = if existsb requests_layout (keys options) then VBool true else VUndefined.
Proof. apply fold_set_prop_layout. Qed.

(** ** The claims about [set] *)

(** C10: [set] without options, or with the empty options object, returns
    with the store as it was and has called nothing but the registration
    of the component. *)
Theorem set_without_options_only_registers :
  ∀ (fuel : nat) (s : Scene) (n : nat),
    set fuel s n None = Some (s, [Register n])
    ∧ set fuel s n (Some []) = Some (s, [Register n]).
Proof. intros fuel s n. split; reflexivity. Qed.

(** C2: a node that has no own value for one of the ten properties read
    without parents lookup gets the process-wide default from the getter,
    in every scene, whatever its ancestors hold; and neither a direct
    assignment of that property on another node nor a call of [set] on
    another node changes that answer. *)
Theorem local_getters_ignore_ancestors
    (DEFAULTS : string → JSValue) (q : LocalProperty)
    (s : Scene) (n : nat) (this : Object3D) :
  s !! n = Some this →
  own this (local_name q) = VUndefined →
  local_getter DEFAULTS q this = DEFAULTS (local_name q)
  ∧ (∀ a v, a ≠ n →
       ∃ this', assign s a (local_name q) v !! n = Some this'
                ∧ local_getter DEFAULTS q this' = DEFAULTS (local_name q))
  ∧ (∀ fuel a options s' called, a ≠ n →
       set fuel s a options = Some (s', called) →
       ∃ this', s' !! n = Some this'
                ∧ local_getter DEFAULTS q this' = DEFAULTS (local_name q)).
Proof.
  intros Hn Hu. pose proof (local_getter_unset DEFAULTS q this Hu) as Hg.
  split; [done|]. split.
  - intros a v Hne. exists this. by rewrite assign_lookup_ne.
  - intros fuel a options s' called Hne Hset. exists this.
    by rewrite (set_other_untouched _ _ _ _ _ _ n Hset Hne).
Qed.

(** The C2 statement for backgroundColor at the panel of the sample scene,
    whose parent is the container. *)
Lemma local_getters_ignore_ancestors_witness :
  getBackgroundColor sampleDefaults samplePanel = sampleDefaults "backgroundColor"
  ∧ ∃ this', assign sampleScene 1 "backgroundColor" (VObj 7) !! 2 = Some this'
             ∧ getBackgroundColor sampleDefaults this'
               = sampleDefaults "backgroundColor".
Proof.
  pose proof (local_getters_ignore_ancestors sampleDefaults backgroundColor
                sampleScene 2 samplePanel) as H.
  destruct H as (H1 & H2 & _).
  - vm_compute. reflexivity.
  - vm_compute. reflexivity.
  - split; [exact H1|]. apply (H2 1 (VObj 7)). lia.
Defined.

(** C4 as stated fails: the options [{ width: 2, fontFamily: "" }] contain
    the key fontFamily, and yet [set] on the text of the sample scene passes
    a true layout flag, requests the layout of the highest parent and does
    not call the font library. *)
Lemma set_font_key_present_keeps_layout :
  ¬ (∀ fuel s n options s' called,
       In "fontFamily" (keys options) ∨ In "fontTexture" (keys options) →
       set fuel s n (Some options) = Some (s', called) →
       ∀ c p l i, In (RequestUpdate c p l i) called → l = VBool false).
Proof.
  intros H.
  specialize (H 3 sampleScene 3 [("width", VNum 2); ("fontFamily", VStr "")]).
  destruct (set 3 sampleScene 3 (Some [("width", VNum 2); ("fontFamily", VStr "")]))
    as [[s' called]|] eqn:Hset; [|by vm_compute in Hset].
  specialize (H s' called (or_introl (or_intror (or_introl eq_refl))) Hset).
  vm_compute in Hset. injection Hset as _ <-.
  specialize (H 3 VUndefined (VBool true) VUndefined (or_intror (or_introl eq_refl))).
  discriminate H.
Qed.

(** C4, amended: when [options.fontFamily] or [options.fontTexture] is
    truthy, [set] returns for any depth of stack, writes neither fontFamily
    nor fontTexture into the component, calls the font library with the
    truthy values, and its only update request is the one on the component
    itself, with the layout flag [false]. *)
Theorem set_truthy_font_suppresses_layout
    (fuel : nat) (s : Scene) (n : nat) (this : Object3D) (options : Options) :
  s !! n = Some this →
  truthy (opt_get options "fontFamily") = true
  ∨ truthy (opt_get options "fontTexture") = true →
  ∃ this',
    set fuel s n (Some options)
    = Some (<[n := this']> s,
            [Register n] ++ font_calls n options
            ++ [RequestUpdate n (parsingNeedsUpdate (set_loop options this).2)
                  (VBool false) (innerNeedsUpdate (set_loop options this).2)])
    ∧ own this' "fontFamily" = own this "fontFamily"
    ∧ own this' "fontTexture" = own this "fontTexture"
    ∧ (truthy (opt_get options "fontFamily") = true →
       In (SetFontFamily n (opt_get options "fontFamily")) (font_calls n options))
    ∧ (truthy (opt_get options "fontTexture") = true →
       In (SetFontTexture n (opt_get options "fontTexture")) (font_calls n options))
    ∧ (∀ c p l i, ¬ In (RequestUpdate c p l i) (font_calls n options)).
Proof.
  intros Hn Hfont.
  assert (stringifies_empty options = false) as He
    by (destruct Hfont; eapply truthy_entry_not_empty; eassumption).
  assert (∀ layout, layout_after_fonts options layout = VBool false) as Hl.
  { intros layout. unfold layout_after_fonts.
    destruct Hfont as [-> | ->]; [done | by rewrite orb_true_r]. }
  exists (set_loop options this).1. split; [|split; [|split; [|split; [|split]]]].
  - rewrite (set_without_layout fuel s n this options) by (by rewrite ?Hl).
    by rewrite Hl.
  - by apply set_loop_own.
  - by apply set_loop_own.
  - intros Ht. unfold font_calls. rewrite Ht. left. reflexivity.
  - intros Ht. unfold font_calls. rewrite Ht. apply in_or_app. right. by left.
  - intros c p l i Hin. unfold font_calls in Hin.
    apply in_app_or in Hin as [Hin|Hin].
    + destruct (truthy (opt_get options "fontFamily")); simpl in Hin;
        [destruct Hin as [Hin|[]]; discriminate Hin | done].
    + destruct (truthy (opt_get options "fontTexture")); simpl in Hin;
        [destruct Hin as [Hin|[]]; discriminate Hin | done].
Qed.

(** The amended C4 statement at the text of the sample scene, with a font
    description and a width in the options. *)
Lemma set_truthy_font_suppresses_layout_witness :
  ∃ this',
    set 0 sampleScene 3 (Some [("width", VNum 2); ("fontFamily", VObj 9)])
    = Some (<[3 := this']> sampleScene,
            [Register 3; SetFontFamily 3 (VObj 9);
             RequestUpdate 3 VUndefined (VBool false) VUndefined])
    ∧ own this' "fontFamily" = VUndefined.
Proof.
  destruct (set_truthy_font_suppresses_layout 0 sampleScene 3 sampleText
              [("width", VNum 2); ("fontFamily", VObj 9)])
    as (this' & Hset & Hfam & _).
  - vm_compute. reflexivity.
  - left. vm_compute. reflexivity.
  - exists this'. split; [exact Hset | exact Hfam].
Defined.

(** C9: for options that are not aborted on and whose fontFamily and
    fontTexture are not truthy (in particular, absent), when the loop of
    [set] leaves a true layout flag, [set] requests the update of the
    component with the accumulated flags and then the update
    (false, true, false) of the highest parent, which is what
    [getHighestParent] returns; when the flag is not true, the request on
    the component is the last call. *)
Theorem set_layout_reaches_highest_parent
    (fuel : nat) (s : Scene) (n : nat) (this : Object3D)
    (options : Options) (l : list nat) :
  s !! n = Some this →
  is_ui_chain s n l = true → length l < fuel →
  stringifies_empty options = false →
  truthy (opt_get options "fontFamily") = false →
  truthy (opt_get options "fontTexture") = false →
  getHighestParent fuel s n = Some (chain_top n l)
  ∧ (layoutNeedsUpdate (set_loop options this).2 = VBool true →
     set fuel s n (Some options)
     = Some (<[n := (set_loop options this).1]> s,
             [ Register n;
               RequestUpdate n (parsingNeedsUpdate (set_loop options this).2)
                 (VBool true) (innerNeedsUpdate (set_loop options this).2);
               RequestUpdate (chain_top n l) (VBool false) (VBool true) (VBool false) ]))
  ∧ (truthy (layoutNeedsUpdate (set_loop options this).2) = false →
     set fuel s n (Some options)
     = Some (<[n := (set_loop options this).1]> s,
             [ Register n;
               RequestUpdate n (parsingNeedsUpdate (set_loop options this).2)
                 (layoutNeedsUpdate (set_loop options this).2)
                 (innerNeedsUpdate (set_loop options this).2) ])).
Proof.
  intros Hn Hc Hf He Hfam Htex.
  assert (font_calls n options = []) as Hcalls
    by (unfold font_calls; by rewrite Hfam, Htex).
  assert (∀ layout, layout_after_fonts options layout = layout) as Hl
    by (intros layout; unfold layout_after_fonts; by rewrite Hfam, Htex).
  split; [by apply getHighestParent_chain|]. split.
  - intros Hflag.
    rewrite (set_with_layout fuel s n this options l)
      by (rewrite ?Hl, ?Hflag; done).
    by rewrite Hcalls, Hl, Hflag.
  - intros Hflag.
    rewrite (set_without_layout fuel s n this options)
      by (rewrite ?Hl; done).
    by rewrite Hcalls, Hl.
Qed.

(** The C9 statement at the text of the sample scene, for a width. *)
Lemma set_layout_reaches_highest_parent_witness :
  set 3 sampleScene 3 (Some [("width", VNum 2)])
  = Some (<[3 := (set_loop [("width", VNum 2)] sampleText).1]> sampleScene,
          [ Register 3;
            RequestUpdate 3 VUndefined (VBool true) VUndefined;
            RequestUpdate 1 (VBool false) (VBool true) (VBool false) ]).
Proof.
  destruct (set_layout_reaches_highest_parent 3 sampleScene 3 sampleText
              [("width", VNum 2)] [2; 1]) as (_ & Hset & _).
  - vm_compute. reflexivity.
  - vm_compute. reflexivity.
  - simpl. lia.
  - vm_compute. reflexivity.
  - vm_compute. reflexivity.
  - vm_compute. reflexivity.
  - apply Hset. vm_compute. reflexivity.
Defined.

(** ** States *)

Lemma frame_states o o' : frame o' = frame o → states o' = states o.
Proof. unfold frame. congruence. Qed.

Lemma frame_currentState o o' :
  frame o' = frame o → currentState o' = currentState o.
Proof. unfold frame. congruence. Qed.

Lemma states_get_registered this state saved :
  states this !! state = Some saved → states_get this state = Some saved.
Proof. intros H. unfold states_get. by rewrite H. Qed.

(** A state registered by [setupState] is found by [states_get]. *)
Lemma setupState_registers this state attrs cb this' :
  setupState this state attrs cb = Stored this' →
  states_get this' state = Some (mkBundle attrs cb).
Proof.
  unfold setupState. destruct (String.eqb state "__proto__"); [done|].
  intros [= <-]. apply states_get_registered. simpl. apply lookup_insert_eq.
Qed.

(** [set] never runs a state callback. *)
Lemma set_calls_no_onSet fuel s n options s' called cb :
  set fuel s n options = Some (s', called) → ¬ In (CallOnSet cb) called.
Proof.
  intros H Hin. unfold set in H.
  assert (∀ k, ¬ In (CallOnSet cb) (font_calls k (default [] options))) as Hfont.
  { intros k Hk. unfold font_calls in Hk. apply in_app_or in Hk as [Hk|Hk].
    - destruct (truthy (opt_get (default [] options) "fontFamily")); simpl in Hk;
        [destruct Hk as [Hk|[]]; discriminate Hk | done].
    - destruct (truthy (opt_get (default [] options) "fontTexture")); simpl in Hk;
        [destruct Hk as [Hk|[]]; discriminate Hk | done]. }
  destruct options as [options|]; simpl in Hfont.
  2:{ injection H as _ <-. destruct Hin as [Hin|[]]. discriminate Hin. }
  destruct (stringifies_empty options).
  { injection H as _ <-. destruct Hin as [Hin|[]]. discriminate Hin. }
  destruct (s !! n) as [this|]; [|done]. simpl in H.
  destruct (set_loop options this) as [this' f].
  destruct (truthy _).
  - destruct (getHighestParent _ _ _); [|done]. simpl in H.
    injection H as _ <-. simpl in Hin.
    destruct Hin as [Hin|Hin]; [discriminate Hin|].
    apply in_app_or in Hin as [Hin|Hin].
    + apply in_app_or in Hin as [Hin|Hin]; [by eapply Hfont|].
      destruct Hin as [Hin|[]]; discriminate Hin.
    + destruct Hin as [Hin|[]]; discriminate Hin.
  - injection H as _ <-. simpl in Hin.
    destruct Hin as [Hin|Hin]; [discriminate Hin|].
    apply in_app_or in Hin as [Hin|Hin]; [by eapply Hfont|].
    destruct Hin as [Hin|[]]; discriminate Hin.
Qed.

(** A name that was never registered and is not inherited by the table:
    [setState] warns and changes nothing. *)
Lemma setState_unknown_warns fuel s n this state :
  s !! n = Some this →
  states this !! state = None →
  one_of state Object_prototype_names = false →
  setState fuel s n state = Some (s, [Warn (unknown_state_message state)]).
Proof.
  intros Hn Hs Hp. unfold setState. rewrite Hn.
  cbn [mbind option_bind]. unfold states_get. by rewrite Hs, Hp.
Qed.

(** C7, at an inherited name: the panel of the sample scene never
    registered a state named constructor, and yet [setState] on that name
    produces no warning and makes it the current state. *)
Theorem setState_inherited_name_is_accepted :
  ∀ fuel : nat,
    states samplePanel !! "constructor" = None
    ∧ currentState samplePanel = None
    ∧ setState fuel sampleScene 2 "constructor"
      = Some (<[2 := with_currentState samplePanel "constructor"]> sampleScene, []).
Proof. intros fuel. repeat split. Qed.

(** C8: for a registered state, the first [setState] returns (the chain of
    UI parents fitting the stack) and a second one right after it returns
    with no call made and the store as the first one left it.  When the
    state was not the current one already, the calls of the first
    [setState] are the state callback, if the bundle has one, followed by
    the calls of one [set] on the attributes of the bundle, if it has
    them, and nothing else; so over the two calls the callback is run once
    and the attributes are applied once. *)
Theorem setState_twice_acts_once
    (fuel : nat) (s : Scene) (n : nat) (this : Object3D)
    (state : string) (saved : StateBundle) (l : list nat) :
  s !! n = Some this →
  states this !! state = Some saved →
  is_ui_chain s n l = true → length l < fuel →
  ∃ s1 called,
    setState fuel s n state = Some (s1, called)
    ∧ setState fuel s1 n state = Some (s1, [])
    ∧ (currentState this ≠ Some state →
       ∃ more,
         called
         = match onSet saved with Some cb => [CallOnSet cb] | None => [] end ++ more
         ∧ (∀ cb, ¬ In (CallOnSet cb) more)
         ∧ match attributes saved with
           | Some attrs =>
               set fuel (<[n := with_currentState this state]> s) n (Some attrs)
               = Some (s1, more)
           | None => s1 = <[n := with_currentState this state]> s ∧ more = []
           end).
Proof.
  intros Hn Hs Hc Hf.
  pose proof (states_get_registered this state saved Hs) as Hget.
  unfold setState at 1. rewrite Hn; cbn [mbind option_bind]. rewrite Hget.
  destruct (bool_decide (currentState this = Some state)) eqn:Hcur.
  { apply bool_decide_eq_true in Hcur.
    exists s, []. split; [done|]. split; [|done].
    unfold setState. rewrite Hn; cbn [mbind option_bind]. rewrite Hget.
    by rewrite bool_decide_eq_true_2. }
  set (this0 := with_currentState this state).
  set (s0 := <[n := this0]> s).
  assert (same_shape s s0) as Hsh by (by eapply same_shape_insert).
  assert (s0 !! n = Some this0) as Hn0 by apply lookup_insert_eq.
  assert (is_ui_chain s0 n l = true) as Hc0
    by (by rewrite <- (is_ui_chain_same_shape s s0)).
  assert (∀ s1 this1, s1 !! n = Some this1 → frame this1 = frame this0 →
            setState fuel s1 n state = Some (s1, [])) as Hsecond.
  { intros s1 this1 Hn1 Hfr. unfold setState. rewrite Hn1; cbn [mbind option_bind].
    unfold states_get. rewrite (frame_states _ _ Hfr). simpl states. rewrite Hs.
    rewrite (frame_currentState _ _ Hfr). simpl currentState.
    by rewrite bool_decide_eq_true_2. }
  destruct (attributes saved) as [attrs|] eqn:Hattrs.
  - destruct (set_total fuel s0 n this0 (Some attrs) l Hn0 Hc0 Hf)
      as (s1 & more & Hset & Hs1).
    rewrite Hset. cbn [mbind option_bind]. exists s1, (match onSet saved with
                                     | Some cb => [CallOnSet cb]
                                     | None => []
                                     end ++ more).
    split; [done|]. split.
    + destruct Hs1 as [-> | (this' & -> & Hfr)].
      * by apply (Hsecond s0 this0).
      * apply (Hsecond _ this'); [apply lookup_insert_eq | done].
    + intros _. exists more. split; [done|]. split; [|done].
      intros cb. by eapply set_calls_no_onSet.
  - exists s0, (match onSet saved with Some cb => [CallOnSet cb] | None => [] end).
    split; [done|]. split; [by apply (Hsecond s0 this0)|].
    intros _. exists []. rewrite app_nil_r.
    split; [done|]. split; [|done]. intros cb [].
Qed.

(** The C8 statement at the panel of the sample scene and its state hover:
    the callback is run once, the background color is applied once, and the
    second [setState] makes no call. *)
Lemma setState_twice_acts_once_witness :
  ∃ s1,
    setState 2 sampleScene 2 "hover"
    = Some (s1, [CallOnSet 0; Register 2;
                 RequestUpdate 2 VUndefined VUndefined (VBool true)])
    ∧ setState 2 s1 2 "hover" = Some (s1, []).
Proof.
  destruct (setState_twice_acts_once 2 sampleScene 2 samplePanel "hover"
              (mkBundle (Some [("backgroundColor", VObj 7)]) (Some 0)) [1])
    as (s1 & called & Hfirst & Hsecond & _).
  - vm_compute. reflexivity.
  - vm_compute. reflexivity.
  - vm_compute. reflexivity.
  - simpl. lia.
  - exists s1. split; [|exact Hsecond].
    pose proof Hfirst as Hrun. vm_compute in Hrun.
    injection Hrun as _ <-. exact Hfirst.
Defined.

(** ** The visit of a subtree *)

(** The visit returns when the subtree fits the stack. *)
Lemma traverse_total h fuel s n :
  subtree_within h s n = true → (h ≤ fuel)%nat → ∃ l, traverse fuel s n = Some l.
Proof.
  revert fuel n. induction h as [|h IH]; intros fuel n Hw Hf; [done|].
  destruct fuel as [|fuel]; [lia|].
  simpl in Hw. destruct (s !! n) as [this|] eqn:Hn; [|done].
  simpl. rewrite Hn; simpl.
  assert (∃ rest, mapM (traverse fuel s) (children this) = Some rest)
    as [rest ->]; [|simpl; eauto].
  induction (children this) as [|c cs IHcs]; [by exists []|].
  simpl in Hw. apply andb_true_iff in Hw as [Hc Hcs].
  destruct (IH fuel c Hc) as [lc Hlc]; [lia|].
  destruct (IHcs Hcs) as [rest Hrest].
  exists (lc :: rest). simpl. rewrite Hlc; simpl. by rewrite Hrest.
Qed.

Lemma Forall2_In_r {A B} (P : A → B → Prop) l k y :
  Forall2 P l k → In y k → ∃ x, In x l ∧ P x y.
Proof.
  induction 1 as [|x y' l k Hxy _ IH]; intros Hin; [done|].
  destruct Hin as [<-|Hin].
  - exists x. split; [by left | done].
  - destruct (IH Hin) as (x' & Hx' & HP). exists x'. split; [by right | done].
Qed.

Lemma Forall2_In_l {A B} (P : A → B → Prop) l k x :
  Forall2 P l k → In x l → ∃ y, In y k ∧ P x y.
Proof.
  induction 1 as [|x' y l k Hxy _ IH]; intros Hin; [done|].
  destruct Hin as [<-|Hin].
  - exists y. split; [by left | done].
  - destruct (IH Hin) as (y' & Hy' & HP). exists y'. split; [by right | done].
Qed.

(** The visit reaches the node, its children, their children and so on,
    and nothing else. *)
Lemma traverse_visits_descendants fuel s n l :
  traverse fuel s n = Some l → ∀ d, In d l ↔ Descendant s n d.
Proof.
  revert n l. induction fuel as [|fuel IH]; intros n l Ht d; [done|].
  simpl in Ht. destruct (s !! n) as [this|] eqn:Hn; [|done]. simpl in Ht.
  destruct (mapM (traverse fuel s) (children this)) as [rest|] eqn:Hm; [|done].
  simpl in Ht. injection Ht as <-.
  apply mapM_Some in Hm. split.
  - intros [<-|Hin]; [constructor|].
    apply in_concat in Hin as (r & Hr & Hd).
    destruct (Forall2_In_r _ _ _ _ Hm Hr) as (c & Hc & Hcr).
    apply (desc_child s n this c d Hn Hc). by apply (IH c r).
  - intros Hd. inversion Hd as [|? this' c ? Hn' Hc Hcd]; subst; [by left|].
    right. rewrite Hn in Hn'. injection Hn' as <-.
    destruct (Forall2_In_l _ _ _ _ Hm Hc) as (r & Hr & Hcr).
    apply in_concat. exists r. split; [done|].
    by apply (IH c r).
Qed.

Lemma flat_map_update_filter (keep : nat → bool) (mk : nat → Event) visited :
  flat_map (λ child, if keep child then [mk child] else []) visited
  = map mk (List.filter keep visited).
Proof.
  induction visited as [|c cs IH]; [done|].
  simpl. destruct (keep c); simpl; by rewrite IH.
Qed.

(** ** The font callbacks *)

(** C5: when the font family is ready, [_updateFontFamily] stores the font
    as the own fontFamily of the node, requests the update
    (true, true, false) of every UI object among the node and its
    descendants, in the order of the visit, and last requests the update
    (false, true, false) of the highest parent.  When a font texture is
    ready, [_updateFontTexture] stores it as the own fontTexture and makes
    that last request only.  Both return when the subtree and the chain of
    UI parents fit the stack. *)
Theorem font_ready_requests_updates
    (fuel : nat) (s : Scene) (n : nat) (this : Object3D)
    (l : list nat) (h : nat) (font texture : JSValue) :
  s !! n = Some this →
  is_ui_chain s n l = true → length l < fuel →
  subtree_within h s n = true → (h ≤ fuel)%nat →
  (∃ visited,
     _updateFontFamily fuel s n font
     = Some (assign s n "fontFamily" font,
             map (λ c, RequestUpdate c (VBool true) (VBool true) (VBool false))
                 (List.filter (isUI_at s) visited)
             ++ [RequestUpdate (chain_top n l) (VBool false) (VBool true) (VBool false)])
     ∧ (∀ d, In d visited ↔ Descendant s n d))
  ∧ own_at (assign s n "fontFamily" font) n "fontFamily" = font
  ∧ _updateFontTexture fuel s n texture
    = Some (assign s n "fontTexture" texture,
            [RequestUpdate (chain_top n l) (VBool false) (VBool true) (VBool false)])
  ∧ own_at (assign s n "fontTexture" texture) n "fontTexture" = texture
  ∧ getHighestParent fuel s n = Some (chain_top n l).
Proof.
  intros Hn Hc Hf Hw Hh.
  pose proof (getHighestParent_chain fuel s n l Hc Hf) as Htop.
  assert (∀ k v, same_shape s (<[n := write this k v]> s)) as Hsh
    by (intros k v; by eapply same_shape_insert).
  split; [|split; [|split; [|split]]].
  - destruct (traverse_total h fuel s n Hw Hh) as [visited Hv].
    exists visited. split; [|by apply traverse_visits_descendants with fuel].
    unfold _updateFontFamily, assign. rewrite Hn; cbn [mbind option_bind].
    rewrite <- (traverse_same_shape fuel s _ n (Hsh _ _)), Hv.
    cbn [mbind option_bind].
    rewrite <- (getHighestParent_same_shape fuel s _ n (Hsh _ _)), Htop.
    cbn [mbind option_bind]. unfold update.
    rewrite flat_map_update_filter. do 3 f_equal. f_equal.
    apply filter_ext. intros c. symmetry. apply isUI_at_same_shape, Hsh.
  - by apply own_at_assign_eq with this.
  - unfold _updateFontTexture, assign. rewrite Hn; cbn [mbind option_bind].
    rewrite <- (getHighestParent_same_shape fuel s _ n (Hsh _ _)), Htop.
    reflexivity.
  - by apply own_at_assign_eq with this.
  - exact Htop.
Qed.

(** The C5 statement at the container of the sample scene, whose subtree
    holds the panel and the text and which is its own highest parent. *)
Lemma font_ready_requests_updates_witness :
  (∃ visited,
     _updateFontFamily 3 sampleScene 1 (VObj 9)
     = Some (assign sampleScene 1 "fontFamily" (VObj 9),
             map (λ c, RequestUpdate c (VBool true) (VBool true) (VBool false))
                 (List.filter (isUI_at sampleScene) visited)
             ++ [RequestUpdate 1 (VBool false) (VBool true) (VBool false)])
     ∧ (∀ d, In d visited ↔ Descendant sampleScene 1 d))
  ∧ _updateFontTexture 3 sampleScene 1 (VObj 8)
    = Some (assign sampleScene 1 "fontTexture" (VObj 8),
            [ RequestUpdate 1 (VBool false) (VBool true) (VBool false) ]).
Proof.
  destruct (font_ready_requests_updates 3 sampleScene 1 sampleContainer
              [] 3 (VObj 9) (VObj 8))
    as (Hfam & _ & Htex & _).
  - vm_compute. reflexivity.
  - vm_compute. reflexivity.
  - simpl. lia.
  - vm_compute. reflexivity.
  - lia.
  - split; [exact Hfam | exact Htex].
Defined.

(** ** Clipping planes *)

Section ClippingProperties.

Variable DEFAULTS : string → JSValue.
Variable Plane : Type.
Variable newPlane : Z * Z * Z → JSValue → Plane.
Variable applyMatrix4 : Plane → Matrix4 → Plane.
Variable getHeight getWidth : Object3D → JSValue.
Variable js_div js_sub : JSValue → JSValue → JSValue.

Let planes_of :=
  getClippingPlanes DEFAULTS Plane newPlane applyMatrix4
    getHeight getWidth js_div js_sub.

Let local_of :=
  spec_local_half_spaces DEFAULTS Plane newPlane applyMatrix4
    getHeight getWidth js_div js_sub.

(** A result does not depend on how much stack was left over. *)
Lemma getClippingPlanes_more_fuel fuel fuel' s n planes :
  planes_of fuel s n = Some planes → (fuel ≤ fuel')%nat →
  planes_of fuel' s n = Some planes.
Proof.
  unfold planes_of. revert fuel' n planes.
  induction fuel as [|fuel IH]; intros fuel' n planes H Hle; [done|].
  destruct fuel' as [|fuel']; [lia|].
  simpl in *. destruct (s !! n) as [this|]; [|done]. simpl in *.
  destruct (getUIParent s this) as [p|]; [|done].
  destruct (s !! p) as [par|]; [|done]. simpl in *.
  destruct (getUIParent s par); [|done].
  destruct (getClippingPlanes _ _ _ _ _ _ _ _ fuel s p) as [inh|] eqn:Hp;
    [|done].
  rewrite (IH fuel' p inh Hp) by lia. done.
Qed.

(** The planes that the code builds for a node itself are the local
    half-spaces of the specification. *)
Lemma own_planes_are_local s this p par :
  getUIParent s this = Some p → s !! p = Some par →
  (if isBlock this && truthy (getHiddenOverflow DEFAULTS par)
   then newPlanes Plane newPlane applyMatrix4 getHeight getWidth js_div js_sub par
   else [])
  = local_of s this.
Proof.
  intros Hp Hpar. unfold local_of, spec_local_half_spaces. by rewrite Hp, Hpar.
Qed.

(** The local half-spaces are there, four of them, exactly when the node
    is a block and its UI parent clips its overflow. *)
Lemma local_half_spaces_present_iff s this :
  length (local_of s this) = 4
  ↔ ∃ p par, getUIParent s this = Some p ∧ s !! p = Some par
             ∧ isBlock this = true
             ∧ truthy (getHiddenOverflow DEFAULTS par) = true.
Proof.
  unfold local_of, spec_local_half_spaces. split.
  - destruct (getUIParent s this) as [p|] eqn:Hp; [|done].
    destruct (s !! p) as [par|] eqn:Hpar; [|done].
    destruct (isBlock this) eqn:Hb; [|done].
    destruct (truthy (getHiddenOverflow DEFAULTS par)) eqn:Hh; [|done].
    intros _. exists p, par. done.
  - intros (p & par & -> & -> & -> & ->). reflexivity.
Qed.

Lemma local_half_spaces_absent s this :
  length (local_of s this) ≠ 4 → local_of s this = [].
Proof.
  unfold local_of, spec_local_half_spaces.
  destruct (getUIParent s this) as [p|]; [|done].
  destruct (s !! p) as [par|]; [|done].
  by destruct (isBlock this && truthy (getHiddenOverflow DEFAULTS par)).
Qed.

(** C6: for a node whose chain of UI parents fits the stack,
    [getClippingPlanes] returns exactly the local half-spaces of the node
    (the four planes at the parent's half extent less its padding, moved
    by the parent's world matrix, when the node is a block and its parent
    clips its overflow; none otherwise) followed by the inherited planes.
    The inherited planes are exactly the local half-spaces of the UI
    parents in order, they are what [getClippingPlanes] returns for the
    nearest UI parent, and the planes that [getClippingPlanes] returns for
    any UI ancestor are all among them. *)
Theorem clipping_planes_compose (s : Scene) (l : list nat) :
  ∀ (fuel n : nat) (this : Object3D),
    s !! n = Some this →
    is_ui_chain s n l = true → length l < fuel →
    ∃ inherited,
      planes_of fuel s n = Some (local_of s this ++ inherited)
      ∧ (local_of s this
         = match getUIParent s this with
           | Some p =>
               match s !! p with
               | Some par =>
                   if isBlock this && truthy (getHiddenOverflow DEFAULTS par)
                   then [ spec_half_space Plane newPlane applyMatrix4
                            js_div js_sub par (0, 1, 0)%Z (getHeight par);
                          spec_half_space Plane newPlane applyMatrix4
                            js_div js_sub par (0, -1, 0)%Z (getHeight par);
                          spec_half_space Plane newPlane applyMatrix4
                            js_div js_sub par (1, 0, 0)%Z (getWidth par);
                          spec_half_space Plane newPlane applyMatrix4
                            js_div js_sub par (-1, 0, 0)%Z (getWidth par) ]
                   else []
               | None => []
               end
           | None => []
           end)
      ∧ inherited
        = spec_clipping_planes DEFAULTS Plane newPlane applyMatrix4
            getHeight getWidth js_div js_sub s l
      ∧ match l with
        | [] => inherited = []
        | a :: _ => planes_of fuel s a = Some inherited
        end
      ∧ ∀ a, In a l →
          ∃ above, planes_of fuel s a = Some above
                   ∧ ∀ plane, In plane above → In plane inherited.
Proof.
  induction l as [|a l IH]; intros fuel n this Hn Hc Hf;
    (destruct fuel as [|fuel]; [simpl in Hf; lia|]).
  - apply is_ui_chain_nil in Hc as (this' & Hn' & Hp).
    rewrite Hn in Hn'. injection Hn' as <-.
    exists []. split; [|split; [done|split; [done|split; [done|intros a []]]]].
    unfold planes_of, local_of, spec_local_half_spaces. simpl.
    rewrite Hn; simpl. by rewrite Hp.
  - apply is_ui_chain_cons in Hc as (this' & Hn' & Hp & Hc).
    rewrite Hn in Hn'. injection Hn' as <-.
    destruct (getUIParent_Some _ _ _ Hp) as (_ & par & Hpar & _).
    destruct (IH fuel a par Hpar Hc)
      as (inh & Ha & _ & Hinh & Hnear & Hup); [simpl in Hf; lia|].
    assert (planes_of (S fuel) s n
            = match getUIParent s par with
              | Some _ => inherited ← planes_of fuel s a;
                          Some (local_of s this ++ inherited)
              | None => Some (local_of s this)
              end) as Hstep.
    { unfold planes_of. simpl. rewrite Hn; simpl. rewrite Hp, Hpar; simpl.
      by rewrite (own_planes_are_local s this a par Hp Hpar). }
    assert (spec_clipping_planes DEFAULTS Plane newPlane applyMatrix4
              getHeight getWidth js_div js_sub s (a :: l)
            = local_of s par ++ inh) as Hspec.
    { unfold spec_clipping_planes. simpl. rewrite Hpar.
      fold (spec_clipping_planes DEFAULTS Plane newPlane applyMatrix4
              getHeight getWidth js_div js_sub s l).
      by rewrite <- Hinh. }
    assert (planes_of (S fuel) s a = Some (local_of s par ++ inh)) as Ha'
      by (apply getClippingPlanes_more_fuel with fuel; [done | lia]).
    destruct (getUIParent s par) as [g|] eqn:Hg.
    + rewrite Ha in Hstep. simpl in Hstep.
      exists (local_of s par ++ inh).
      split; [done|]. split; [done|]. split; [by rewrite Hspec|].
      split; [done|].
      intros b [<-|Hb].
      * exists (local_of s par ++ inh). done.
      * destruct (Hup b Hb) as (above & Hab & Hin).
        exists above. split.
        -- apply getClippingPlanes_more_fuel with fuel; [done | lia].
        -- intros plane Hplane. apply in_or_app. right. by apply Hin.
    + assert (l = []) as ->.
      { destruct l as [|b l]; [done|].
        apply is_ui_chain_cons in Hc as (par' & Hpar' & Hg' & _).
        rewrite Hpar in Hpar'. injection Hpar' as <-. congruence. }
      assert (local_of s par = []) as Hnone
        by (unfold local_of, spec_local_half_spaces; by rewrite Hg).
      clear Hinh Hup. subst inh. rewrite Hnone in Hspec, Ha'.
      rewrite app_nil_r in Hspec, Ha'.
      exists []. split; [by rewrite Hstep, app_nil_r|]. split; [done|].
      split; [by rewrite Hspec|]. split; [done|].
      intros b [<-|[]]. exists []. done.
Qed.

End ClippingProperties.

(** The C6 statement at the text of the sample scene, after the panel
    around it was made to clip its overflow: the text is no block, so it
    has no local half-spaces in spite of its clipping parent, and what it
    inherits is what the panel gets from the clipping container. *)
Lemma clipping_planes_compose_witness :
  ∃ inherited,
    sampleClippingPlanes 3 (assign sampleScene 2 "hiddenOverflow" (VBool true)) 3
    = Some (spec_local_half_spaces sampleDefaults PlaneTerm PNew PApply
              (sample_extent "height") (sample_extent "width")
              sample_div sample_sub
              (assign sampleScene 2 "hiddenOverflow" (VBool true)) sampleText
            ++ inherited)
    ∧ inherited
      = spec_clipping_planes sampleDefaults PlaneTerm PNew PApply
          (sample_extent "height") (sample_extent "width")
          sample_div sample_sub
          (assign sampleScene 2 "hiddenOverflow" (VBool true)) [2; 1]
    ∧ sampleClippingPlanes 3 (assign sampleScene 2 "hiddenOverflow" (VBool true)) 2
      = Some inherited.
Proof.
  destruct (clipping_planes_compose sampleDefaults PlaneTerm PNew PApply
              (sample_extent "height") (sample_extent "width")
              sample_div sample_sub
              (assign sampleScene 2 "hiddenOverflow" (VBool true))
              [2; 1] 3 3 sampleText)
    as (inherited & Hplanes & _ & Hspec & Hnear & _).
  - vm_compute. reflexivity.
  - vm_compute. reflexivity.
  - simpl. lia.
  - exists inherited. split; [exact Hplanes|]. split; [exact Hspec | exact Hnear].
Defined.

(** * Further properties of the component *)

(** ** Depth and highest parent *)

Lemma js_increment_exact i :
  (i < 9007199254740992)%N → js_increment i = (i + 1)%N.
Proof.
  intros Hi. unfold js_increment.
  by rewrite (proj2 (N.ltb_lt i 9007199254740992) Hi).
Qed.

(** X1: [getParentsNumber( i )], called without argument or with a counter
    that is an integer, returns the counter (0 when there is none) plus
    the number of UI parents above the node, as long as that sum does not
    exceed 2^53, up to where adding 1 to a JavaScript number is exact. *)
Theorem getParentsNumber_counts_chain
    (fuel : nat) (s : Scene) (n : nat) (l : list nat) (i : option N) :
  is_ui_chain s n l = true → length l < fuel →
  (default 0 i + N.of_nat (length l) ≤ 9007199254740992)%N →
  getParentsNumber fuel s n i = Some (default 0 i + N.of_nat (length l))%N.
Proof.
  revert fuel n i. induction l as [|a l IH]; intros fuel n i Hc Hf Hi;
    (destruct fuel as [|fuel]; [simpl in Hf; lia|]).
  - apply is_ui_chain_nil in Hc as (this & Hthis & Hp).
    simpl. rewrite Hthis; simpl. rewrite Hp. f_equal. lia.
  - apply is_ui_chain_cons in Hc as (this & Hthis & Hp & Hc).
    simpl getParentsNumber. rewrite Hthis; cbn [mbind option_bind]. rewrite Hp.
    apply getUIParent_Some in Hp as [-> _]. cbn [mbind option_bind].
    simpl length in Hi. rewrite Nat2N.inj_succ in Hi.
    rewrite js_increment_exact by lia.
    rewrite (IH fuel a (Some (default 0%N i + 1)%N) Hc);
      [| simpl in Hf; lia | simpl; lia].
    f_equal. simpl length. rewrite Nat2N.inj_succ. simpl. lia.
Qed.

Lemma getParentsNumber_counts_chain_witness :
  getParentsNumber 3 sampleScene 3 None
  = Some (default 0 None + N.of_nat (length [2; 1]))%N.
Proof.
  apply (getParentsNumber_counts_chain 3 sampleScene 3 [2; 1] None).
  - vm_compute. reflexivity.
  - simpl. lia.
  - vm_compute. discriminate.
Defined.

Lemma is_ui_chain_top_nil s n l :
  is_ui_chain s n l = true → is_ui_chain s (chain_top n l) [] = true.
Proof.
  revert n. induction l as [|a l IH]; intros n Hc; [done|].
  apply is_ui_chain_cons in Hc as (this & Hthis & Hp & Hc).
  rewrite chain_top_cons. by apply IH.
Qed.

Lemma is_ui_chain_In s n l a :
  is_ui_chain s n l = true → In a l →
  ∃ l', is_ui_chain s a l' = true ∧ length l' < length l
        ∧ chain_top a l' = chain_top n l.
Proof.
  revert n. induction l as [|b l IH]; intros n Hc Hin; [done|].
  apply is_ui_chain_cons in Hc as (this & Hthis & Hp & Hc).
  destruct Hin as [<-|Hin].
  - exists l. split; [done|]. split; [simpl; lia|]. by rewrite chain_top_cons.
  - destruct (IH b Hc Hin) as (l' & Hl' & Hlen & Htop).
    exists l'. split; [done|]. split; [simpl; lia|].
    by rewrite chain_top_cons.
Qed.

(** X2: along a chain of UI parents that fits the stack, the node and
    every UI ancestor of it have the same highest parent; that object has
    no UI parent and is its own highest parent. *)
Theorem getHighestParent_is_shared_top
    (fuel : nat) (s : Scene) (n : nat) (l : list nat) :
  is_ui_chain s n l = true → length l < fuel →
  ∃ top topObject,
    getHighestParent fuel s n = Some top
    ∧ s !! top = Some topObject ∧ getUIParent s topObject = None
    ∧ getHighestParent fuel s top = Some top
    ∧ ∀ a, In a l → getHighestParent fuel s a = Some top.
Proof.
  intros Hc Hf.
  destruct (chain_top_is_top s n l Hc) as (topObject & Htop & Hnone).
  exists (chain_top n l), topObject.
  split; [by apply getHighestParent_chain|]. split; [done|]. split; [done|].
  split.
  - apply (getHighestParent_chain fuel s _ []).
    + by apply is_ui_chain_top_nil.
    + simpl. lia.
  - intros a Ha.
    destruct (is_ui_chain_In s n l a Hc Ha) as (l' & Hl' & Hlen & <-).
    apply getHighestParent_chain; [done | lia].
Qed.

Lemma getHighestParent_is_shared_top_witness :
  ∃ top topObject,
    getHighestParent 3 sampleScene 3 = Some top
    ∧ sampleScene !! top = Some topObject
    ∧ getUIParent sampleScene topObject = None
    ∧ getHighestParent 3 sampleScene top = Some top
    ∧ ∀ a, In a [2; 1] → getHighestParent 3 sampleScene a = Some top.
Proof.
  apply (getHighestParent_is_shared_top 3 sampleScene 3 [2; 1]).
  - vm_compute. reflexivity.
  - simpl. lia.
Defined.

(** ** Resolution along the chain *)

Section ResolutionMore.

Variable DEFAULTS : string → JSValue.

(** The lookup reads the shape of the store and the own values of the one
    property, nothing else. *)
Lemma _getProperty_same_view fuel s s' n propName :
  same_shape s s' →
  (∀ k, own_at s k propName = own_at s' k propName) →
  _getProperty DEFAULTS fuel s n propName
  = _getProperty DEFAULTS fuel s' n propName.
Proof.
  intros Hsh Hown. revert n. induction fuel as [|fuel IH]; intros n; [done|].
  simpl. pose proof (Hown n) as Hn. unfold own_at in Hn.
  destruct (s !! n) as [o|] eqn:Ho.
  - destruct (same_shape_lookup _ _ _ _ Hsh Ho) as (o' & Ho' & Hshape).
    rewrite Ho' in Hn |- *. simpl. rewrite <- Hn.
    rewrite <- (getUIParent_same_shape s s' o o' Hsh Hshape).
    assert (parent o' = parent o) as -> by (unfold shape in Hshape; congruence).
    destruct (is_undefined (own o propName)
              && bool_decide (is_Some (getUIParent s o))); [|done].
    destruct (parent o); simpl; [apply IH | done].
  - by rewrite (same_shape_lookup_None _ _ _ Hsh Ho).
Qed.

(** X3: the nearest object on the chain (the node first, then its UI
    parents in order) whose own value is not [undefined] decides the
    lookup: its value is returned when truthy, the default otherwise;
    whatever the objects further up hold is not read. *)
Theorem _getProperty_nearest_defined
    (fuel : nat) (s : Scene) (n : nat) (l pre post : list nat) (c : nat)
    (propName : string) :
  is_ui_chain s n l = true →
  n :: l = pre ++ c :: post →
  Forall (λ a, own_at s a propName = VUndefined) pre →
  is_undefined (own_at s c propName) = false →
  length pre < fuel →
  _getProperty DEFAULTS fuel s n propName
  = Some (if truthy (own_at s c propName) then own_at s c propName
          else DEFAULTS propName).
Proof.
  revert fuel n l. induction pre as [|b pre IH]; intros fuel n l Hc Heq Hpre Hdef Hf;
    (destruct fuel as [|fuel]; [simpl in Hf; lia|]).
  - simpl in Heq. injection Heq as <- _.
    assert (∃ this, s !! n = Some this) as [this Hn].
    { destruct l; [apply is_ui_chain_nil in Hc | apply is_ui_chain_cons in Hc];
        destruct Hc as (this & Hn & _); eauto. }
    unfold own_at in *. rewrite Hn in *. simpl. rewrite Hn; simpl.
    rewrite Hdef. simpl. by destruct (truthy (own this propName)).
  - simpl in Heq. injection Heq as <- Heq.
    destruct l as [|a l]; [by destruct pre|].
    apply is_ui_chain_cons in Hc as (this & Hn & Hp & Hc).
    inversion_clear Hpre as [|? ? Hb Hpre'].
    unfold own_at in Hb. rewrite Hn in Hb.
    rewrite (_getProperty_inherit DEFAULTS _ _ _ this a) by done.
    apply (IH fuel a l); [done | done | done | done | simpl in Hf; lia].
Qed.

End ResolutionMore.

Lemma _getProperty_nearest_defined_witness :
  _getProperty sampleDefaults 3 sampleScene 3 "fontSize"
  = Some (if truthy (own_at sampleScene 1 "fontSize")
          then own_at sampleScene 1 "fontSize"
          else sampleDefaults "fontSize").
Proof.
  apply (_getProperty_nearest_defined sampleDefaults 3 sampleScene 3
           [2; 1] [3; 2] [] 1 "fontSize").
  - vm_compute. reflexivity.
  - reflexivity.
  - repeat constructor.
  - vm_compute. reflexivity.
  - simpl. lia.
Defined.

(** ** What [set] stores *)

(** The case of a dispatched key writes the value that the options hold
    under that key. *)
Lemma set_prop_writes options acc k :
  dispatched k = true → own (set_prop options acc k).1 k = opt_get options k.
Proof.
  intros H. destruct acc as [this f]. unfold set_prop, dispatched, one_of in *.
  simpl in H. simpl.
  repeat (match goal with
          | |- context [String.eqb k ?x] =>
              destruct (String.eqb k x); simpl in H |- *;
              try apply own_write_eq
          end).
  discriminate H.
Qed.

Lemma fold_set_prop_own_notin options ks acc k :
  ¬ In k ks → own (fold_left (set_prop options) ks acc).1 k = own acc.1 k.
Proof.
  revert acc. induction ks as [|p ks IH]; intros acc Hnot; [done|].
  simpl. rewrite IH by (intros Hq; apply Hnot; by right).
  apply set_prop_own_ne. intros ->. apply Hnot. by left.
Qed.

Lemma fold_set_prop_own_in options ks acc k :
  dispatched k = true → In k ks →
  own (fold_left (set_prop options) ks acc).1 k = opt_get options k.
Proof.
  intros Hk. revert acc. induction ks as [|p ks IH]; intros acc Hin; [done|].
  simpl. destruct (in_dec String.string_dec k ks) as [Hin'|Hnot]; [by apply IH|].
  destruct Hin as [->|Hin]; [|done].
  rewrite fold_set_prop_own_notin by done. by apply set_prop_writes.
Qed.

(** [set] returns whenever the chain of UI parents fits the stack; unless
    it aborts, the store it leaves differs from the old one by the object
    that the loop produced. *)
Lemma set_returns fuel s n this options l :
  s !! n = Some this →
  is_ui_chain s n l = true → length l < fuel →
  ∃ called,
    set fuel s n (Some options)
    = Some (if stringifies_empty options then s
            else <[n := (set_loop options this).1]> s, called).
Proof.
  intros Hn Hc Hf. destruct (stringifies_empty options) eqn:He.
  - rewrite set_abort by done. eauto.
  - destruct (truthy (layout_after_fonts options
                 (layoutNeedsUpdate (set_loop options this).2))) eqn:Hl.
    + rewrite (set_with_layout fuel s n this options l) by done. eauto.
    + rewrite (set_without_layout fuel s n this options) by done. eauto.
Qed.

(** What a call of [set] that does not abort stores under the keys that
    the [switch] has a case for. *)
Lemma set_stores_dispatched_options_aux fuel s n this options l :
  s !! n = Some this →
  is_ui_chain s n l = true → length l < fuel →
  stringifies_empty options = false →
  ∃ s' called,
    set fuel s n (Some options) = Some (s', called)
    ∧ ∀ k, dispatched k = true → In k (keys options) →
        own_at s' n k = opt_get options k.
Proof.
  intros Hn Hc Hf He.
  destruct (set_returns fuel s n this options l Hn Hc Hf) as [called Hset].
  rewrite He in Hset. do 2 eexists. split; [exact Hset|].
  unfold own_at. rewrite lookup_insert_eq.
  intros k Hk Hin. by apply fold_set_prop_own_in.
Qed.

(** X4: a call of [set] that does not abort stores, for every key of the
    options that the [switch] has a case for, the value that the options
    hold under it (falsy values and [undefined] included), and leaves the
    own value of every other property as it was. *)
Theorem set_stores_dispatched_options
    (fuel : nat) (s : Scene) (n : nat) (this : Object3D)
    (options : Options) (l : list nat) :
  s !! n = Some this →
  is_ui_chain s n l = true → length l < fuel →
  stringifies_empty options = false →
  ∃ s' called,
    set fuel s n (Some options) = Some (s', called)
    ∧ (∀ k, dispatched k = true → In k (keys options) →
         own_at s' n k = opt_get options k)
    ∧ (∀ k, dispatched k = false ∨ ¬ In k (keys options) →
         own_at s' n k = own_at s n k).
Proof.
  intros Hn Hc Hf He.
  destruct (set_returns fuel s n this options l Hn Hc Hf) as [called Hset].
  rewrite He in Hset. do 2 eexists. split; [exact Hset|].
  unfold own_at. rewrite lookup_insert_eq, Hn. split.
  - intros k Hk Hin. by apply fold_set_prop_own_in.
  - intros k [Hk|Hk].
    + by apply set_loop_own.
    + by apply fold_set_prop_own_notin.
Qed.

Lemma set_stores_dispatched_options_witness :
  ∃ s' called,
    set 3 sampleScene 3 (Some [("offset", VNum 0); ("breakOn", VStr "-")])
    = Some (s', called)
    ∧ (∀ k, dispatched k = true →
         In k (keys [("offset", VNum 0); ("breakOn", VStr "-")]) →
         own_at s' 3 k = opt_get [("offset", VNum 0); ("breakOn", VStr "-")] k)
    ∧ (∀ k, dispatched k = false
            ∨ ¬ In k (keys [("offset", VNum 0); ("breakOn", VStr "-")]) →
         own_at s' 3 k = own_at sampleScene 3 k).
Proof.
  apply (set_stores_dispatched_options 3 sampleScene 3 sampleText
           [("offset", VNum 0); ("breakOn", VStr "-")] [2; 1]).
  - vm_compute. reflexivity.
  - vm_compute. reflexivity.
  - simpl. lia.
  - vm_compute. reflexivity.
Defined.

(** [set] changes attribute values of the component only. *)
Lemma set_frames fuel s n options s' called :
  set fuel s n options = Some (s', called) →
  ∀ k, frame <$> (s' !! k) = frame <$> (s !! k).
Proof.
  intros H k. unfold set in H.
  destruct options as [options|]; [|by injection H as <- _].
  destruct (stringifies_empty options); [by injection H as <- _|].
  destruct (s !! n) as [this|] eqn:Hn; [|done]. simpl in H.
  pose proof (set_loop_frame options this) as Hfr.
  destruct (set_loop options this) as [this' f]. simpl in Hfr.
  assert (frame <$> (<[n := this']> s !! k) = frame <$> (s !! k)) as Hk.
  { destruct (decide (n = k)) as [<-|Hne].
    - rewrite lookup_insert_eq, Hn. simpl. by rewrite Hfr.
    - by rewrite lookup_insert_ne. }
  destruct (truthy _).
  - destruct (getHighestParent _ _ _); [|done]. simpl in H.
    by injection H as <- _.
  - by injection H as <- _.
Qed.

Lemma frames_same_shape s s' :
  (∀ k, frame <$> (s' !! k) = frame <$> (s !! k)) → same_shape s s'.
Proof.
  intros H k. specialize (H k).
  destruct (s !! k) as [o|], (s' !! k) as [o'|]; simpl in *; try done.
  injection H as H1 H2 H3 H4 H5 H6 H7 H8 H9. f_equal. unfold shape. congruence.
Qed.

(** X5: a call of [set], on any component and with any options, leaves
    every object of the scene with the role tags, parent, children, world
    matrix, state table and current state it had: [set] changes attribute
    values only, and only those of the component it is called on. *)
Theorem set_changes_attribute_values_only
    (fuel : nat) (s : Scene) (n : nat) (options : option Options)
    (s' : Scene) (called : list Event) :
  set fuel s n options = Some (s', called) →
  (∀ k, frame <$> (s' !! k) = frame <$> (s !! k))
  ∧ (∀ k, n ≠ k → s' !! k = s !! k).
Proof.
  intros H. split.
  - by apply set_frames with fuel n options called.
  - intros k Hne. by apply set_other_untouched with fuel n options called.
Qed.

Lemma set_changes_attribute_values_only_witness :
  ∃ s' called,
    set 3 sampleScene 2 (Some [("width", VNum 2)]) = Some (s', called)
    ∧ (∀ k, frame <$> (s' !! k) = frame <$> (sampleScene !! k))
    ∧ (∀ k, 2 ≠ k → s' !! k = sampleScene !! k).
Proof.
  destruct (set 3 sampleScene 2 (Some [("width", VNum 2)]))
    as [[s' called]|] eqn:Hset; [|by vm_compute in Hset].
  exists s', called. split; [reflexivity|].
  apply (set_changes_attribute_values_only 3 sampleScene 2
           (Some [("width", VNum 2)]) s' called Hset).
Defined.

(** X6: the [switch] of [set] has no case for breakOn, fontFamily or
    fontTexture (nor for any name outside its five groups): whatever the
    options hold under such a name, after [set] the lookup of that property
    answers, on every node, what it answered before. *)
Theorem set_leaves_undispatched_resolution
    (DEFAULTS : string → JSValue)
    (fuel : nat) (s : Scene) (n : nat) (this : Object3D)
    (options : Options) (l : list nat) (propName : string) :
  s !! n = Some this →
  is_ui_chain s n l = true → length l < fuel →
  dispatched propName = false →
  ∃ s' called,
    set fuel s n (Some options) = Some (s', called)
    ∧ ∀ fuel' m,
        _getProperty DEFAULTS fuel' s' m propName
        = _getProperty DEFAULTS fuel' s m propName.
Proof.
  intros Hn Hc Hf Hk.
  destruct (set_returns fuel s n this options l Hn Hc Hf) as [called Hset].
  do 2 eexists. split; [exact Hset|]. intros fuel' m.
  destruct (stringifies_empty options); [done|].
  symmetry. apply _getProperty_same_view.
  - eapply same_shape_insert; [done|]. apply frame_shape, set_loop_frame.
  - intros k. unfold own_at. destruct (decide (n = k)) as [<-|Hne].
    + rewrite lookup_insert_eq, Hn. symmetry. by apply set_loop_own.
    + by rewrite lookup_insert_ne.
Qed.

Lemma set_leaves_undispatched_resolution_witness :
  ∃ s' called,
    set 2 sampleScene2 11 (Some [("breakOn", VStr " ")]) = Some (s', called)
    ∧ ∀ fuel' m,
        _getProperty sampleDefaults fuel' s' m "breakOn"
        = _getProperty sampleDefaults fuel' sampleScene2 m "breakOn".
Proof.
  apply (set_leaves_undispatched_resolution sampleDefaults 2 sampleScene2 11
           sampleLabel [("breakOn", VStr " ")] [10] "breakOn").
  - vm_compute. reflexivity.
  - vm_compute. reflexivity.
  - simpl. lia.
  - vm_compute. reflexivity.
Defined.

(** ** The flags that [set] passes on *)

Lemma fold_set_prop_parsing options ks acc :
  parsingNeedsUpdate (fold_left (set_prop options) ks acc).2
  = if existsb (requests_parsing acc.1) ks then VBool true
    else parsingNeedsUpdate acc.2.
Proof.
  revert acc. induction ks as [|k ks IH]; intros acc; [done|].
  simpl. rewrite IH.
  assert (existsb (requests_parsing (set_prop options acc k).1) ks
          = existsb (requests_parsing acc.1) ks) as ->.
  { pose proof (set_prop_frame options acc k) as Hfr.
    assert (isText (set_prop options acc k).1 = isText acc.1) as Ht
      by (unfold frame in Hfr; congruence).
    assert (isInlineBlock (set_prop options acc k).1 = isInlineBlock acc.1) as Hi
      by (unfold frame in Hfr; congruence).
    unfold requests_parsing. by rewrite Ht, Hi. }
  destruct acc as [this f].
  unfold set_prop, requests_parsing, one_of. simpl.
  repeat (match goal with |- context [String.eqb k ?x] =>
            destruct (String.eqb_spec k x) as [->|]; simpl;
            try (by destruct (isText this), (isInlineBlock this),
                      (existsb _ ks))
          end).
Qed.

Lemma fold_set_prop_inner options ks acc :
  innerNeedsUpdate (fold_left (set_prop options) ks acc).2
  = if existsb requests_inner ks then VBool true else innerNeedsUpdate acc.2.
Proof.
  revert acc. induction ks as [|k ks IH]; intros acc; [done|].
  simpl. rewrite IH. destruct acc as [this f].
  unfold set_prop, requests_inner, one_of. simpl.
  repeat (match goal with |- context [String.eqb k ?x] =>
            destruct (String.eqb_spec k x) as [->|]; simpl;
            try by destruct (existsb _ ks)
          end).
Qed.

(** X7: for options that are not aborted on and hold no truthy fontFamily
    or fontTexture, the update that [set] requests on the component carries
    three flags read off the keys alone: parsing is [true] when content is
    among them and the component is a text, or width, height or padding is
    and the component is an inline block; layout is [true] when one of the
    fourteen layout keys is; inner is [true] when one of the six inner keys
    is; a flag that no key turns on is passed as [undefined]. *)
Theorem set_flags_follow_keys
    (fuel : nat) (s : Scene) (n : nat) (this : Object3D)
    (options : Options) (l : list nat) :
  s !! n = Some this →
  is_ui_chain s n l = true → length l < fuel →
  stringifies_empty options = false →
  truthy (opt_get options "fontFamily") = false →
  truthy (opt_get options "fontTexture") = false →
  ∃ s' rest,
    set fuel s n (Some options)
    = Some (s',
            Register n
            :: RequestUpdate n
                 (if existsb (requests_parsing this) (keys options)
                  then VBool true else VUndefined)
                 (if existsb requests_layout (keys options)
                  then VBool true else VUndefined)
                 (if existsb requests_inner (keys options)
                  then VBool true else VUndefined)
            :: rest).
Proof.
  intros Hn Hc Hf He Hfam Htex.
  assert (font_calls n options = []) as Hcalls
    by (unfold font_calls; by rewrite Hfam, Htex).
  assert (∀ layout, layout_after_fonts options layout = layout) as Hl
    by (intros layout; unfold layout_after_fonts; by rewrite Hfam, Htex).
  pose proof (fold_set_prop_parsing options (keys options) (this, noFlags)) as Hp.
  pose proof (set_loop_layout options this) as Hlay.
  pose proof (fold_set_prop_inner options (keys options) (this, noFlags)) as Hi.
  fold (set_loop options this) in Hp, Hi. simpl in Hp, Hi.
  destruct (truthy (layout_after_fonts options
               (layoutNeedsUpdate (set_loop options this).2))) eqn:Ht.
  - rewrite (set_with_layout fuel s n this options l) by done.
    rewrite Hcalls, Hl, Hp, Hlay, Hi. simpl. eauto.
  - rewrite (set_without_layout fuel s n this options) by done.
    rewrite Hcalls, Hl, Hp, Hlay, Hi. simpl. eauto.
Qed.

Lemma set_flags_follow_keys_witness :
  ∃ s' rest,
    set 3 sampleScene 3 (Some [("content", VStr "hello"); ("fontColor", VObj 3)])
    = Some (s',
            Register 3
            :: RequestUpdate 3
                 (if existsb (requests_parsing sampleText)
                      (keys [("content", VStr "hello"); ("fontColor", VObj 3)])
                  then VBool true else VUndefined)
                 (if existsb requests_layout
                      (keys [("content", VStr "hello"); ("fontColor", VObj 3)])
                  then VBool true else VUndefined)
                 (if existsb requests_inner
                      (keys [("content", VStr "hello"); ("fontColor", VObj 3)])
                  then VBool true else VUndefined)
            :: rest).
Proof.
  apply (set_flags_follow_keys 3 sampleScene 3 sampleText
           [("content", VStr "hello"); ("fontColor", VObj 3)] [2; 1]).
  - vm_compute. reflexivity.
  - vm_compute. reflexivity.
  - simpl. lia.
  - vm_compute. reflexivity.
  - vm_compute. reflexivity.
  - vm_compute. reflexivity.
Defined.

(** ** [set] followed by a getter *)

(** X8: after [set] stored a truthy value under a key that the [switch]
    has a case for, [_getProperty] answers that value for that key on the
    component, and on any UI child of the component that has no own value
    for it. *)
Theorem set_value_reaches_children
    (DEFAULTS : string → JSValue)
    (fuel : nat) (s : Scene) (n : nat) (this : Object3D)
    (options : Options) (l : list nat) (k : string)
    (c : nat) (child : Object3D) :
  s !! n = Some this →
  is_ui_chain s n l = true → length l < fuel →
  dispatched k = true → In k (keys options) →
  truthy (opt_get options k) = true →
  s !! c = Some child → c ≠ n →
  getUIParent s child = Some n → own child k = VUndefined →
  ∃ s' called,
    set fuel s n (Some options) = Some (s', called)
    ∧ ∀ fuel',
        _getProperty DEFAULTS (S fuel') s' n k = Some (opt_get options k)
        ∧ _getProperty DEFAULTS (S (S fuel')) s' c k = Some (opt_get options k).
Proof.
  intros Hn Hc Hf Hk Hin Ht Hchild Hne Hpar Hu.
  destruct (set_returns fuel s n this options l Hn Hc Hf) as [called Hset].
  rewrite (truthy_entry_not_empty options k Ht) in Hset.
  set (this' := (set_loop options this).1) in *.
  assert (own this' k = opt_get options k) as Hown
    by (by apply fold_set_prop_own_in).
  assert (same_shape s (<[n := this']> s)) as Hsh
    by (eapply same_shape_insert; [done | apply frame_shape, set_loop_frame]).
  do 2 eexists. split; [exact Hset|]. intros fuel'.
  assert (_getProperty DEFAULTS (S fuel') (<[n := this']> s) n k
          = Some (opt_get options k)) as Hnode.
  { rewrite <- Hown. apply _getProperty_own_truthy; [apply lookup_insert_eq|].
    by rewrite Hown. }
  split; [done|].
  rewrite (_getProperty_inherit DEFAULTS _ _ _ child n); [done | | done |].
  - by rewrite lookup_insert_ne.
  - by rewrite <- (getUIParent_same_shape s _ child child Hsh).
Qed.

Lemma set_value_reaches_children_witness :
  ∃ s' called,
    set 3 sampleScene 2 (Some [("fontColor", VObj 4)]) = Some (s', called)
    ∧ ∀ fuel',
        _getProperty sampleDefaults (S fuel') s' 2 "fontColor"
        = Some (opt_get [("fontColor", VObj 4)] "fontColor")
        ∧ _getProperty sampleDefaults (S (S fuel')) s' 3 "fontColor"
          = Some (opt_get [("fontColor", VObj 4)] "fontColor").
Proof.
  apply (set_value_reaches_children sampleDefaults 3 sampleScene 2 samplePanel
           [("fontColor", VObj 4)] [1] "fontColor" 3 sampleText).
  - vm_compute. reflexivity.
  - vm_compute. reflexivity.
  - simpl. lia.
  - vm_compute. reflexivity.
  - left. reflexivity.
  - vm_compute. reflexivity.
  - vm_compute. reflexivity.
  - lia.
  - vm_compute. reflexivity.
  - vm_compute. reflexivity.
Defined.

(** X9: [set] cannot take an own value back when [undefined] is all it is
    given: with options whose values are all [undefined] the call aborts
    and the store stays as it was.  Next to a value that is not
    [undefined], the same key does store [undefined]. *)
Theorem set_undefined_needs_company
    (fuel : nat) (s : Scene) (n : nat) (this : Object3D)
    (l : list nat) (k k2 : string) (v2 : JSValue) (alone : Options) :
  s !! n = Some this →
  is_ui_chain s n l = true → length l < fuel →
  dispatched k = true → k ≠ k2 → is_undefined v2 = false →
  Forall (λ kv, kv.2 = VUndefined) alone →
  set fuel s n (Some alone) = Some (s, [Register n])
  ∧ ∃ s' called,
      set fuel s n (Some [(k, VUndefined); (k2, v2)]) = Some (s', called)
      ∧ own_at s' n k = VUndefined.
Proof.
  intros Hn Hc Hf Hk Hne Hv2 Halone. split.
  - apply set_abort. unfold stringifies_empty.
    induction Halone as [|[k' v'] rest Hv _ IH]; [done|].
    simpl in *. by rewrite Hv, IH.
  - destruct (set_stores_dispatched_options_aux fuel s n this
                [(k, VUndefined); (k2, v2)] l Hn Hc Hf)
      as (s' & called & Hset & Hstored).
    + simpl. by rewrite Hv2.
    + exists s', called. split; [done|].
      rewrite (Hstored k Hk) by (by left).
      simpl. by rewrite String.eqb_refl.
Qed.

Lemma set_undefined_needs_company_witness :
  set 3 sampleScene 1 (Some [("fontSize", VUndefined)])
  = Some (sampleScene, [Register 1])
  ∧ ∃ s' called,
      set 3 sampleScene 1 (Some [("fontSize", VUndefined); ("offset", VNum 0)])
      = Some (s', called)
      ∧ own_at s' 1 "fontSize" = VUndefined.
Proof.
  apply (set_undefined_needs_company 3 sampleScene 1 sampleContainer []
           "fontSize" "offset" (VNum 0) [("fontSize", VUndefined)]).
  - vm_compute. reflexivity.
  - vm_compute. reflexivity.
  - simpl. lia.
  - vm_compute. reflexivity.
  - discriminate.
  - reflexivity.
  - repeat constructor.
Defined.

(** Each getter without parents lookup answers the own value when its test
    passes and the default otherwise. *)
Lemma local_getter_tests DEFAULTS (q : LocalProperty) (this : Object3D) :
  local_getter DEFAULTS q this
  = if local_honours q (own this (local_name q)) then own this (local_name q)
    else DEFAULTS (local_name q).
Proof.
  destruct q; simpl;
    unfold getBackgroundColor, getBackgroundOpacity, getBackgroundTexture,
      getBackgroundSize, getAlignContent, getContentDirection,
      getJustifyContent, getInterLine, getOffset, getHiddenOverflow, js_or;
    try reflexivity;
    try (by destruct (is_undefined _)).
  by destruct (truthy _), (strict_neq_zero _).
Qed.

(** X10: after a call of [set] that does not abort and gives a value for
    one of the ten properties read without parents lookup, the getter of
    that property answers that value when the test of the getter passes on
    it (any value but [undefined] for interLine, offset, backgroundSize and
    hiddenOverflow; a truthy value or the number 0 for backgroundOpacity;
    a truthy value for the other five) and the default otherwise. *)
Theorem set_then_local_getter
    (DEFAULTS : string → JSValue) (q : LocalProperty)
    (fuel : nat) (s : Scene) (n : nat) (this : Object3D)
    (options : Options) (l : list nat) :
  s !! n = Some this →
  is_ui_chain s n l = true → length l < fuel →
  stringifies_empty options = false →
  In (local_name q) (keys options) →
  ∃ s' called this',
    set fuel s n (Some options) = Some (s', called)
    ∧ s' !! n = Some this'
    ∧ local_getter DEFAULTS q this'
      = if local_honours q (opt_get options (local_name q))
        then opt_get options (local_name q)
        else DEFAULTS (local_name q).
Proof.
  intros Hn Hc Hf He Hin.
  destruct (set_returns fuel s n this options l Hn Hc Hf) as [called Hset].
  rewrite He in Hset.
  exists (<[n := (set_loop options this).1]> s), called, (set_loop options this).1.
  split; [done|]. split; [apply lookup_insert_eq|].
  rewrite local_getter_tests.
  assert (own (set_loop options this).1 (local_name q)
          = opt_get options (local_name q)) as ->; [|done].
  apply fold_set_prop_own_in; [by destruct q | done].
Qed.

Lemma set_then_local_getter_witness :
  ∃ s' called this',
    set 3 sampleScene 1 (Some [("hiddenOverflow", VBool false)])
    = Some (s', called)
    ∧ s' !! 1 = Some this'
    ∧ local_getter sampleDefaults hiddenOverflow this'
      = if local_honours hiddenOverflow
             (opt_get [("hiddenOverflow", VBool false)] (local_name hiddenOverflow))
        then opt_get [("hiddenOverflow", VBool false)] (local_name hiddenOverflow)
        else sampleDefaults (local_name hiddenOverflow).
Proof.
  apply (set_then_local_getter sampleDefaults hiddenOverflow 3 sampleScene 1
           sampleContainer [("hiddenOverflow", VBool false)] []).
  - vm_compute. reflexivity.
  - vm_compute. reflexivity.
  - simpl. lia.
  - vm_compute. reflexivity.
  - left. reflexivity.
Defined.

(** ** The state table *)

(** What [setupState] changes of the component. *)
Lemma setupState_fields this this' state attrs cb :
  setupState this state attrs cb = Stored this' →
  states_get this' state = Some (mkBundle attrs cb)
  ∧ (∀ other, other ≠ state → states_get this' other = states_get this other)
  ∧ props this' = props this
  ∧ currentState this' = currentState this
  ∧ shape this' = shape this.
Proof.
  intros H. split; [by eapply setupState_registers|].
  unfold setupState in H. destruct (String.eqb state "__proto__"); [done|].
  injection H as <-. repeat split.
  intros other Hne. unfold states_get. simpl. by rewrite lookup_insert_ne.
Qed.

(** X12: a state that is registered and then entered from another state
    becomes the current state; the callback of its bundle, if any, is
    called; when its attributes are not aborted on by [set], each of them
    that the [switch] has a case for is stored on the component; and the
    state table stays as [setupState] left it. *)
Theorem setupState_then_setState
    (fuel : nat) (s : Scene) (n : nat) (this this1 : Object3D)
    (state : string) (attrs : option Options) (cb : option nat)
    (l : list nat) :
  s !! n = Some this →
  setupState this state attrs cb = Stored this1 →
  currentState this ≠ Some state →
  is_ui_chain s n l = true → length l < fuel →
  ∃ s2 called this2,
    setState fuel (<[n := this1]> s) n state = Some (s2, called)
    ∧ s2 !! n = Some this2
    ∧ currentState this2 = Some state
    ∧ states this2 = states this1
    ∧ (∀ f, cb = Some f → In (CallOnSet f) called)
    ∧ (∀ a k, attrs = Some a → stringifies_empty a = false →
         dispatched k = true → In k (keys a) → own this2 k = opt_get a k).
Proof.
  intros Hn Hsetup Hcur Hc Hf.
  destruct (setupState_fields _ _ _ _ _ Hsetup)
    as (Hget & _ & _ & Hcur1 & Hshape1).
  set (s1 := <[n := this1]> s).
  set (this0 := with_currentState this1 state).
  set (s0 := <[n := this0]> s1).
  assert (s1 !! n = Some this1) as Hn1 by apply lookup_insert_eq.
  assert (s0 !! n = Some this0) as Hn0 by apply lookup_insert_eq.
  assert (same_shape s s1) as Hsh1 by (by eapply same_shape_insert).
  assert (same_shape s1 s0) as Hsh0 by (by eapply same_shape_insert).
  assert (is_ui_chain s0 n l = true) as Hc0.
  { rewrite <- (is_ui_chain_same_shape s1 s0) by done.
    by rewrite <- (is_ui_chain_same_shape s s1). }
  unfold setState. rewrite Hn1. cbn [mbind option_bind]. rewrite Hget.
  rewrite bool_decide_eq_false_2 by congruence.
  cbn [onSet attributes]. fold this0. fold s0.
  destruct attrs as [a|].
  - destruct (set_returns fuel s0 n this0 a l Hn0 Hc0 Hf) as [more Hset].
    rewrite Hset. cbn [mbind option_bind].
    pose proof (set_loop_frame a this0) as Hfr.
    destruct (stringifies_empty a) eqn:He.
    + exists s0, (match cb with Some f => [CallOnSet f] | None => [] end ++ more),
        this0.
      split; [done|]. split; [done|]. split; [done|]. split; [done|]. split.
      * intros f ->. apply in_or_app. left. by left.
      * intros a' k [= <-]. congruence.
    + exists (<[n := (set_loop a this0).1]> s0),
        (match cb with Some f => [CallOnSet f] | None => [] end ++ more),
        (set_loop a this0).1.
      split; [done|]. split; [apply lookup_insert_eq|].
      split; [by rewrite (frame_currentState _ _ Hfr)|].
      split; [by rewrite (frame_states _ _ Hfr)|]. split.
      * intros f ->. apply in_or_app. left. by left.
      * intros a' k [= <-] _ Hk Hin. by apply fold_set_prop_own_in.
  - exists s0, (match cb with Some f => [CallOnSet f] | None => [] end), this0.
    split; [done|]. split; [done|]. split; [done|]. split; [done|]. split.
    + intros f ->. by left.
    + intros a' k Ha. discriminate Ha.
Qed.

Lemma setupState_then_setState_witness :
  ∃ this1 s2 called this2,
    setupState sampleText "faded" (Some [("fontOpacity", VNum 0)]) (Some 5)
    = Stored this1
    ∧ setState 3 (<[3 := this1]> sampleScene) 3 "faded" = Some (s2, called)
    ∧ s2 !! 3 = Some this2
    ∧ currentState this2 = Some "faded"
    ∧ In (CallOnSet 5) called
    ∧ own this2 "fontOpacity" = VNum 0.
Proof.
  destruct (setupState sampleText "faded" (Some [("fontOpacity", VNum 0)]) (Some 5))
    as [this1|same proto] eqn:Hsetup; [|by vm_compute in Hsetup].
  destruct (setupState_then_setState 3 sampleScene 3 sampleText this1 "faded"
              (Some [("fontOpacity", VNum 0)]) (Some 5) [2; 1])
    as (s2 & called & this2 & Hset & Hn2 & Hcur & _ & Hcb & Hown).
  - vm_compute. reflexivity.
  - exact Hsetup.
  - discriminate.
  - vm_compute. reflexivity.
  - simpl. lia.
  - exists this1, s2, called, this2.
    split; [reflexivity|]. split; [exact Hset|]. split; [exact Hn2|].
    split; [exact Hcur|]. split; [by apply Hcb|].
    apply (Hown [("fontOpacity", VNum 0)] "fontOpacity");
      [reflexivity | reflexivity | reflexivity | by left].
Defined.

(** X13: [setupState] does not look at the current state, and [setState]
    compares names only: replacing the bundle of the state that is current
    and calling [setState] with that name again calls nothing and stores
    nothing, so the new attributes are not applied. *)
Theorem reregistered_current_state_is_not_reapplied
    (fuel : nat) (s : Scene) (n : nat) (this this1 : Object3D)
    (state : string) (attrs : option Options) (cb : option nat) :
  s !! n = Some this →
  currentState this = Some state →
  setupState this state attrs cb = Stored this1 →
  setState fuel (<[n := this1]> s) n state = Some (<[n := this1]> s, []).
Proof.
  intros Hn Hcur Hsetup.
  destruct (setupState_fields _ _ _ _ _ Hsetup)
    as (Hget & _ & _ & Hcur1 & _).
  unfold setState. rewrite lookup_insert_eq. cbn [mbind option_bind].
  rewrite Hget. by rewrite bool_decide_eq_true_2 by congruence.
Qed.

Lemma reregistered_current_state_is_not_reapplied_witness :
  ∃ this1,
    setupState (with_currentState samplePanel "hover") "hover"
      (Some [("width", VNum 9)]) (Some 1) = Stored this1
    ∧ setState 3 (<[2 := this1]> (<[2 := with_currentState samplePanel "hover"]>
                                     sampleScene)) 2 "hover"
      = Some (<[2 := this1]> (<[2 := with_currentState samplePanel "hover"]>
                                sampleScene), []).
Proof.
  destruct (setupState (with_currentState samplePanel "hover") "hover"
              (Some [("width", VNum 9)]) (Some 1))
    as [this1|same proto] eqn:Hsetup; [|by vm_compute in Hsetup].
  exists this1. split; [reflexivity|].
  apply (reregistered_current_state_is_not_reapplied 3
           (<[2 := with_currentState samplePanel "hover"]> sampleScene) 2
           (with_currentState samplePanel "hover") this1 "hover"
           (Some [("width", VNum 9)]) (Some 1)).
  - vm_compute. reflexivity.
  - reflexivity.
  - exact Hsetup.
Defined.

(** ** The container *)

Lemma getContainer_here DEFAULTS fuel s n this :
  s !! n = Some this → isUI this = true →
  truthy (own this "threeOBJ") = true →
  getContainer DEFAULTS (S fuel) s n = Some (ContainerIs n).
Proof.
  intros Hn Hui Ht. simpl. rewrite Hn. cbn [mbind option_bind].
  by rewrite Hui, Ht.
Qed.

Lemma getContainer_up DEFAULTS fuel s n this p :
  s !! n = Some this → isUI this = true →
  truthy (own this "threeOBJ") = false → parent this = Some p →
  getContainer DEFAULTS (S fuel) s n = getContainer DEFAULTS fuel s p.
Proof.
  intros Hn Hui Ht Hp. simpl. rewrite Hn. cbn [mbind option_bind].
  rewrite Hui, Ht, Hp. reflexivity.
Qed.

(** X14: on a UI component, [getContainer] returns the nearest object
    that has a truthy [threeOBJ], looking at the component first and then
    up its UI parents in order. *)
Theorem getContainer_nearest_payload
    (DEFAULTS : string → JSValue)
    (fuel : nat) (s : Scene) (n : nat) (l pre post : list nat) (c : nat) :
  is_ui_chain s n l = true → isUI_at s n = true →
  n :: l = pre ++ c :: post →
  Forall (λ a, truthy (own_at s a "threeOBJ") = false) pre →
  truthy (own_at s c "threeOBJ") = true →
  length pre < fuel →
  getContainer DEFAULTS fuel s n = Some (ContainerIs c).
Proof.
  revert fuel n l.
  induction pre as [|b pre IH]; intros fuel n l Hc Hui Heq Hpre Hpay Hf;
    (destruct fuel as [|fuel]; [simpl in Hf; lia|]).
  - simpl in Heq. injection Heq as <- _.
    unfold isUI_at, own_at in *.
    destruct (s !! n) as [this|] eqn:Hn; [|done].
    by apply getContainer_here with this.
  - simpl in Heq. injection Heq as <- Heq.
    destruct l as [|a l]; [by destruct pre|].
    apply is_ui_chain_cons in Hc as (this & Hn & Hp & Hc).
    inversion_clear Hpre as [|? ? Hb Hpre'].
    unfold isUI_at, own_at in Hui, Hb. rewrite Hn in Hui, Hb.
    destruct (getUIParent_Some _ _ _ Hp) as (Hpar & po & Hpo & Hpoui).
    rewrite (getContainer_up DEFAULTS fuel s n this a) by done.
    apply (IH fuel a l); [done | | done | done | done | simpl in Hf; lia].
    unfold isUI_at. by rewrite Hpo.
Qed.

Lemma getContainer_nearest_payload_witness :
  getContainer sampleDefaults 2 sampleScene2 11 = Some (ContainerIs 10).
Proof.
  apply (getContainer_nearest_payload sampleDefaults 2 sampleScene2 11
           [10] [11] [] 10).
  - vm_compute. reflexivity.
  - vm_compute. reflexivity.
  - reflexivity.
  - repeat constructor.
  - vm_compute. reflexivity.
  - simpl. lia.
Defined.

(** X15: when neither the component nor any of its UI parents has a truthy
    [threeOBJ], the answer depends on what is above the highest parent:
    with no parent at all [getContainer] returns [DEFAULTS.container]; with
    a parent that is no UI component the call never returns a container,
    however deep the stack, because the recursion steps onto an object that
    has no such method. *)
Theorem getContainer_without_payload
    (DEFAULTS : string → JSValue)
    (s : Scene) (n : nat) (l : list nat) (top : Object3D) :
  is_ui_chain s n l = true → isUI_at s n = true →
  Forall (λ a, truthy (own_at s a "threeOBJ") = false) (n :: l) →
  s !! chain_top n l = Some top →
  (parent top = None →
   ∀ fuel, length l < fuel →
     getContainer DEFAULTS fuel s n
     = Some (ContainerDefault (DEFAULTS "container")))
  ∧ (∀ p po, parent top = Some p → s !! p = Some po → isUI po = false →
     ∀ fuel, getContainer DEFAULTS fuel s n = None).
Proof.
  revert n. induction l as [|a l IH]; intros n Hc Hui Hall Htop.
  - apply is_ui_chain_nil in Hc as (this & Hn & Hp).
    unfold chain_top in Htop. simpl in Htop. rewrite Hn in Htop.
    injection Htop as <-.
    inversion_clear Hall as [|? ? Hpay _].
    unfold isUI_at, own_at in Hui, Hpay. rewrite Hn in Hui, Hpay. split.
    + intros Hnone fuel Hf. destruct fuel as [|fuel]; [simpl in Hf; lia|].
      simpl. rewrite Hn. cbn [mbind option_bind].
      rewrite Hui, Hpay, Hnone. reflexivity.
    + intros p po Hpar Hpo Hpoui fuel. destruct fuel as [|fuel]; [done|].
      rewrite (getContainer_up DEFAULTS fuel s n this p) by done.
      destruct fuel as [|fuel]; [done|].
      simpl. rewrite Hpo. cbn [mbind option_bind]. by rewrite Hpoui.
  - apply is_ui_chain_cons in Hc as (this & Hn & Hp & Hc).
    rewrite chain_top_cons in Htop.
    inversion_clear Hall as [|? ? Hpay Hall'].
    unfold isUI_at, own_at in Hui, Hpay. rewrite Hn in Hui, Hpay.
    destruct (getUIParent_Some _ _ _ Hp) as (Hpar & po & Hpo & Hpoui).
    assert (isUI_at s a = true) as Huia by (unfold isUI_at; by rewrite Hpo).
    destruct (IH a Hc Huia Hall' Htop) as [IH1 IH2]. split.
    + intros Hnone fuel Hf. destruct fuel as [|fuel]; [simpl in Hf; lia|].
      rewrite (getContainer_up DEFAULTS fuel s n this a) by done.
      apply IH1; [done | simpl in Hf; lia].
    + intros p po' Hpar' Hpo' Hpoui' fuel. destruct fuel as [|fuel]; [done|].
      rewrite (getContainer_up DEFAULTS fuel s n this a) by done.
      by apply (IH2 p po').
Qed.

Lemma getContainer_without_payload_witness :
  getContainer sampleDefaults 10 sampleScene 3 = None.
Proof.
  destruct (getContainer_without_payload sampleDefaults sampleScene 3 [2; 1]
              sampleContainer) as [_ H].
  - vm_compute. reflexivity.
  - vm_compute. reflexivity.
  - repeat constructor.
  - vm_compute. reflexivity.
  - apply (H 0 sampleRoot); reflexivity.
Defined.

(** ** Teardown *)

Lemma in_clear_visit s x e :
  In e (clear_visit s x)
  ↔ e = DisposeOf x
    ∨ (e = DisposeMaterial x ∧ truthy (own_at s x "material") = true)
    ∨ (e = DisposeGeometry x ∧ truthy (own_at s x "geometry") = true).
Proof.
  unfold clear_visit. rewrite !in_app_iff.
  destruct (truthy (own_at s x "material")),
           (truthy (own_at s x "geometry")); simpl; intuition congruence.
Qed.

(** X16: [clear] returns when the subtree fits the stack, changes nothing
    in the store, and calls [UpdateManager.disposeOf] on exactly the
    objects of the subtree of the component (the component included, UI
    or not), [material.dispose] on exactly those of them that have a
    material and [geometry.dispose] on exactly those that have a
    geometry. *)
Theorem clear_disposes_subtree
    (fuel : nat) (s : Scene) (n : nat) (h : nat) :
  subtree_within h s n = true → (h ≤ fuel)%nat →
  ∃ calls,
    clear fuel s n = Some calls
    ∧ (∀ d, In (DisposeOf d) calls ↔ Descendant s n d)
    ∧ (∀ d, In (DisposeMaterial d) calls
            ↔ Descendant s n d ∧ truthy (own_at s d "material") = true)
    ∧ (∀ d, In (DisposeGeometry d) calls
            ↔ Descendant s n d ∧ truthy (own_at s d "geometry") = true).
Proof.
  intros Hw Hh. destruct (traverse_total h fuel s n Hw Hh) as [visited Hv].
  pose proof (traverse_visits_descendants fuel s n visited Hv) as Hdesc.
  exists (flat_map (clear_visit s) visited).
  split; [unfold clear; by rewrite Hv|].
  split; [|split]; intros d; rewrite in_flat_map; split.
  - intros (x & Hx & Hin). apply in_clear_visit in Hin.
    destruct Hin as [[= <-]|[[Hin _]|[Hin _]]]; try discriminate Hin.
    by apply Hdesc.
  - intros Hd. exists d. split; [by apply Hdesc|].
    apply in_clear_visit. by left.
  - intros (x & Hx & Hin). apply in_clear_visit in Hin.
    destruct Hin as [Hin|[[[= <-] Hm]|[Hin _]]]; try discriminate Hin.
    split; [by apply Hdesc | done].
  - intros [Hd Hm]. exists d. split; [by apply Hdesc|].
    apply in_clear_visit. right. by left.
  - intros (x & Hx & Hin). apply in_clear_visit in Hin.
    destruct Hin as [Hin|[[Hin _]|[[= <-] Hg]]]; try discriminate Hin.
    split; [by apply Hdesc | done].
  - intros [Hd Hg]. exists d. split; [by apply Hdesc|].
    apply in_clear_visit. right. by right.
Qed.

Lemma clear_disposes_subtree_witness :
  ∃ calls,
    clear 2 sampleScene2 10 = Some calls
    ∧ (∀ d, In (DisposeOf d) calls ↔ Descendant sampleScene2 10 d)
    ∧ (∀ d, In (DisposeMaterial d) calls
            ↔ Descendant sampleScene2 10 d
              ∧ truthy (own_at sampleScene2 d "material") = true)
    ∧ (∀ d, In (DisposeGeometry d) calls
            ↔ Descendant sampleScene2 10 d
              ∧ truthy (own_at sampleScene2 d "geometry") = true).
Proof.
  apply (clear_disposes_subtree 2 sampleScene2 10 2).
  - vm_compute. reflexivity.
  - lia.
Defined.

(** ** Properties are looked up independently *)



(** ** The font callback followed by the getter *)

(** X18: after [_updateFontFamily( font )] with a truthy font,
    [getFontFamily] answers that font on the component and on every UI
    child of it that has no own fontFamily. *)
Theorem font_family_ready_is_resolved
    (DEFAULTS : string → JSValue)
    (fuel : nat) (s : Scene) (n : nat) (this : Object3D)
    (l : list nat) (h : nat) (font : JSValue) :
  s !! n = Some this →
  is_ui_chain s n l = true → length l < fuel →
  subtree_within h s n = true → (h ≤ fuel)%nat →
  truthy font = true →
  ∃ s' called,
    _updateFontFamily fuel s n font = Some (s', called)
    ∧ (∀ fuel', getFontFamily DEFAULTS (S fuel') s' n = Some font)
    ∧ (∀ fuel' c child,
         s !! c = Some child → c ≠ n → getUIParent s child = Some n →
         own child "fontFamily" = VUndefined →
         getFontFamily DEFAULTS (S (S fuel')) s' c = Some font).
Proof.
  intros Hn Hc Hf Hw Hh Ht.
  set (this' := write this "fontFamily" font).
  set (s' := <[n := this']> s).
  assert (same_shape s s') as Hsh by (by eapply same_shape_insert).
  destruct (traverse_total h fuel s n Hw Hh) as [visited Hv].
  assert (∃ called, _updateFontFamily fuel s n font = Some (s', called))
    as [called Hrun].
  { unfold _updateFontFamily. rewrite Hn; cbn [mbind option_bind].
    fold this'. fold s'.
    rewrite <- (traverse_same_shape fuel s s' n Hsh), Hv.
    cbn [mbind option_bind].
    rewrite <- (getHighestParent_same_shape fuel s s' n Hsh).
    rewrite (getHighestParent_chain fuel s n l Hc Hf).
    cbn [mbind option_bind]. eauto. }
  exists s', called. split; [done|].
  assert (s' !! n = Some this') as Hn' by apply lookup_insert_eq.
  assert (own this' "fontFamily" = font) as Hown by apply own_write_eq.
  assert (∀ fuel', getFontFamily DEFAULTS (S fuel') s' n = Some font) as Hnode.
  { intros fuel'. unfold getFontFamily.
    rewrite (_getProperty_own_truthy DEFAULTS fuel' s' n this' "fontFamily")
      by (done || by rewrite Hown).
    by rewrite Hown. }
  split; [done|].
  intros fuel' c child Hchild Hne Hpar Hu. unfold getFontFamily.
  rewrite (_getProperty_inherit DEFAULTS _ _ _ child n); [apply Hnode | | done |].
  - unfold s'. by rewrite lookup_insert_ne.
  - by rewrite <- (getUIParent_same_shape s s' child child Hsh).
Qed.

Lemma font_family_ready_is_resolved_witness :
  ∃ s' called,
    _updateFontFamily 3 sampleScene 2 (VObj 9) = Some (s', called)
    ∧ (∀ fuel', getFontFamily sampleDefaults (S fuel') s' 2 = Some (VObj 9))
    ∧ (∀ fuel' c child,
         sampleScene !! c = Some child → c ≠ 2 →
         getUIParent sampleScene child = Some 2 →
         own child "fontFamily" = VUndefined →
         getFontFamily sampleDefaults (S (S fuel')) s' c = Some (VObj 9)).
Proof.
  apply (font_family_ready_is_resolved sampleDefaults 3 sampleScene 2
           samplePanel [1] 2 (VObj 9)).
  - vm_compute. reflexivity.
  - vm_compute. reflexivity.
  - simpl. lia.
  - vm_compute. reflexivity.
  - lia.
  - reflexivity.
Defined.

(** ** How many planes *)

Section ClippingMore.

Variable DEFAULTS : string → JSValue.
Variable Plane : Type.
Variable newPlane : Z * Z * Z → JSValue → Plane.
Variable applyMatrix4 : Plane → Matrix4 → Plane.
Variable getHeight getWidth : Object3D → JSValue.
Variable js_div js_sub : JSValue → JSValue → JSValue.

Let planes_of :=
  getClippingPlanes DEFAULTS Plane newPlane applyMatrix4
    getHeight getWidth js_div js_sub.

(** X19: [getClippingPlanes] returns at most four planes per UI parent
    above the node, and none for a node without UI parent. *)
Theorem clipping_planes_bounded
    (fuel : nat) (s : Scene) (n : nat) (l : list nat) :
  is_ui_chain s n l = true → length l < fuel →
  ∃ planes,
    planes_of fuel s n = Some planes ∧ (length planes ≤ 4 * length l)%nat.
Proof.
  unfold planes_of. revert fuel n.
  induction l as [|a l IH]; intros fuel n Hc Hf;
    (destruct fuel as [|fuel]; [simpl in Hf; lia|]).
  - apply is_ui_chain_nil in Hc as (this & Hn & Hp).
    exists []. simpl. rewrite Hn; simpl. by rewrite Hp.
  - apply is_ui_chain_cons in Hc as (this & Hn & Hp & Hc).
    destruct (getUIParent_Some _ _ _ Hp) as (_ & par & Hpar & _).
    destruct (IH fuel a Hc) as (inh & Ha & Hlen); [simpl in Hf; lia|].
    simpl getClippingPlanes. rewrite Hn; cbn [mbind option_bind].
    rewrite Hp, Hpar; cbn [mbind option_bind].
    set (own_planes := if isBlock this && truthy (getHiddenOverflow DEFAULTS par)
                       then newPlanes Plane newPlane applyMatrix4 getHeight
                              getWidth js_div js_sub par
                       else []).
    assert (length own_planes ≤ 4)%nat as Hown
      by (unfold own_planes; destruct (_ && _); simpl; lia).
    destruct (getUIParent s par).
    + rewrite Ha. cbn [mbind option_bind]. eexists. split; [done|].
      rewrite length_app. simpl length. lia.
    + eexists. split; [done|]. simpl length. lia.
Qed.

(** X20: when no UI parent above the node clips its overflow (the
    [getHiddenOverflow] of each is falsy), [getClippingPlanes] returns the
    empty list. *)
Theorem no_clipping_parent_no_planes
    (fuel : nat) (s : Scene) (n : nat) (l : list nat) :
  is_ui_chain s n l = true → length l < fuel →
  (∀ a par, In a l → s !! a = Some par →
     truthy (getHiddenOverflow DEFAULTS par) = false) →
  planes_of fuel s n = Some [].
Proof.
  unfold planes_of. revert fuel n.
  induction l as [|a l IH]; intros fuel n Hc Hf Hclip;
    (destruct fuel as [|fuel]; [simpl in Hf; lia|]).
  - apply is_ui_chain_nil in Hc as (this & Hn & Hp).
    simpl. rewrite Hn; simpl. by rewrite Hp.
  - apply is_ui_chain_cons in Hc as (this & Hn & Hp & Hc).
    destruct (getUIParent_Some _ _ _ Hp) as (_ & par & Hpar & _).
    simpl getClippingPlanes. rewrite Hn; cbn [mbind option_bind].
    rewrite Hp, Hpar; cbn [mbind option_bind].
    rewrite (Hclip a par) by (done || by left). rewrite andb_false_r.
    destruct (getUIParent s par); [|done].
    rewrite (IH fuel a Hc); [done | simpl in Hf; lia |].
    intros b parb Hb. apply Hclip. by right.
Qed.

End ClippingMore.

Lemma clipping_planes_bounded_witness :
  ∃ planes,
    sampleClippingPlanes 3 sampleScene 3 = Some planes
    ∧ (length planes ≤ 4 * length [2; 1])%nat.
Proof.
  apply (clipping_planes_bounded sampleDefaults PlaneTerm PNew PApply
           (sample_extent "height") (sample_extent "width")
           sample_div sample_sub 3 sampleScene 3 [2; 1]).
  - vm_compute. reflexivity.
  - simpl. lia.
Defined.

Lemma no_clipping_parent_no_planes_witness :
  getClippingPlanes sampleDefaults PlaneTerm PNew PApply
    (sample_extent "height") (sample_extent "width") sample_div sample_sub
    2 sampleScene2 11
  = Some [].
Proof.
  apply (no_clipping_parent_no_planes sampleDefaults PlaneTerm PNew PApply
           (sample_extent "height") (sample_extent "width")
           sample_div sample_sub 2 sampleScene2 11 [10]).
  - vm_compute. reflexivity.
  - simpl. lia.
  - intros a par [<-|[]] Hpar. vm_compute in Hpar.
    injection Hpar as <-. vm_compute. reflexivity.
Defined.

(** ** Unknown state names *)


